(** * The consumption-event store of [server.js]

    [server.js] holds three bindings of the same three tools
    ([log_consumption], [list_consumption], [summarize_intake]):
    an HTTP server over an in-memory array (lines 1-101), a tool-protocol
    server (lines 105-211) and an HTTP server over a relational table
    (lines 213-422).  This development embeds the handlers and the request
    listener of the first binding, the schema, the handlers and the
    resource of the second one, the ingestion handler and the query
    conditions of the third one, and states the properties of the
    event-store contract and of the code over them. *)

From Stdlib Require Import List String Ascii Bool Arith Lia Floats.
From Stdlib Require Import DecimalString Sorted FinFun NArith.
Import ListNotations.
Open Scope string_scope.
Set Warnings "-register-all".

(** ** The fragment of JavaScript the handlers use *)

Module JS.

(** Values as [JSON.parse] builds them, plus [undefined] (what reading a
    missing property gives).  A number is an IEEE 754 binary64, a string is
    a sequence of code units (here restricted to the 8-bit ones), an object
    is the sequence of its own properties, each name occurring once. *)
Inductive value : Type :=
| VUndefined
| VNull
| VBool (b : bool)
| VNum (x : float)
| VStr (s : string)
| VArr (elems : list value)
| VObj (props : list (string * value)).

(** What a [throw] carries: [new Error(message)], or the [TypeError] the
    engine raises by itself (its message is engine-specific and left out). *)
Inductive exn : Type :=
| Error (message : string)
| TypeError.

(** How an evaluation ends.  [Unmodelled] marks the operand kinds of [<],
    [>] and [+] whose conversions (number to string, string to number)
    are outside this fragment. *)
Inductive completion (A : Type) : Type :=
| Normal (a : A)
| Throw (e : exn)
| Unmodelled.
Arguments Normal {A} a.
Arguments Throw {A} e.
Arguments Unmodelled {A}.

Definition bindC {A B} (c : completion A) (k : A -> completion B) : completion B :=
  match c with
  | Normal a => k a
  | Throw e => Throw e
  | Unmodelled => Unmodelled
  end.

(** ToBoolean. *)
Definition truthy (v : value) : bool :=
  match v with
  | VUndefined | VNull => false
  | VBool b => b
  | VNum x => negb (PrimFloat.eqb x 0 || PrimFloat.is_nan x)
  | VStr s => negb (s =? "")
  | VArr _ | VObj _ => true
  end.

Definition typeof (v : value) : string :=
  match v with
  | VUndefined => "undefined"
  | VBool _ => "boolean"
  | VNum _ => "number"
  | VStr _ => "string"
  | VNull | VArr _ | VObj _ => "object"
  end.

Definition nullish (v : value) : bool :=
  match v with
  | VUndefined | VNull => true
  | _ => false
  end.

Fixpoint lookup (k : string) (props : list (string * value)) : value :=
  match props with
  | [] => VUndefined
  | (k', v) :: rest => if k' =? k then v else lookup k rest
  end.

(** [v.k], for the property names the handlers read ([events],
    [timestamp], [item], [amount], [unit], [user_id], [source], [calories],
    [id], [notes], [from], [to]): none of them is defined on a prototype,
    so only an object's own properties answer. *)
Definition get (v : value) (k : string) : completion value :=
  match v with
  | VUndefined | VNull => Throw TypeError
  | VObj props => Normal (lookup k props)
  | VBool _ | VNum _ | VStr _ | VArr _ => Normal VUndefined
  end.

(** [v?.k] *)
Definition get_opt (v : value) (k : string) : completion value :=
  if nullish v then Normal VUndefined else get v k.

(** [a || b] and [a ?? b], for a [b] whose evaluation has no effect. *)
Definition or_else (a b : value) : value := if truthy a then a else b.
Definition coalesce (a b : value) : value := if nullish a then b else a.

Definition Array_isArray (v : value) : bool :=
  match v with
  | VArr _ => true
  | _ => false
  end.

Definition elements (v : value) : list value :=
  match v with
  | VArr l => l
  | _ => []
  end.

(** [a === b] between two values that come from different requests: two
    arrays or two objects are then never the same reference. *)
Definition strict_eq (a b : value) : bool :=
  match a, b with
  | VUndefined, VUndefined => true
  | VNull, VNull => true
  | VBool x, VBool y => Bool.eqb x y
  | VNum x, VNum y => PrimFloat.eqb x y
  | VStr x, VStr y => x =? y
  | _, _ => false
  end.

(** [v.slice(0, 10)]: strings and arrays have the method, nothing else a
    request can carry does. *)
Definition slice_0_10 (v : value) : completion value :=
  match v with
  | VStr s => Normal (VStr (substring 0 10 s))
  | VArr l => Normal (VArr (firstn 10 l))
  | _ => Throw TypeError
  end.

(** [a < b] and [a > b]: on two strings, the order of their code units. *)
Definition lt (a b : value) : completion bool :=
  match a, b with
  | VStr x, VStr y => Normal (String.ltb x y)
  | _, _ => Unmodelled
  end.

Definition gt (a b : value) : completion bool :=
  match a, b with
  | VStr x, VStr y => Normal (String.ltb y x)
  | _, _ => Unmodelled
  end.

(** [a + b]: on two numbers, their binary64 sum; on two strings, their
    concatenation; a zero next to a string reads ["0"] (the decimal form of
    the other numbers is outside this fragment). *)
Definition add (a b : value) : completion value :=
  match a, b with
  | VNum x, VNum y => Normal (VNum (x + y))
  | VStr s, VStr t => Normal (VStr (s ++ t))
  | VNum x, VStr t => if PrimFloat.eqb x 0 then Normal (VStr ("0" ++ t)) else Unmodelled
  | VStr s, VNum y => if PrimFloat.eqb y 0 then Normal (VStr (s ++ "0")) else Unmodelled
  | _, _ => Unmodelled
  end.

(** [xs.filter(p)] with a callback that may throw. *)
Fixpoint filterC {A} (p : A -> completion bool) (xs : list A) : completion (list A) :=
  match xs with
  | [] => Normal []
  | x :: rest =>
      bindC (p x) (fun keep =>
      bindC (filterC p rest) (fun kept =>
      Normal (if keep then x :: kept else kept)))
  end.

(** [xs.reduce(f, init)] *)
Fixpoint reduceC {A B} (f : B -> A -> completion B) (xs : list A) (init : B) : completion B :=
  match xs with
  | [] => Normal init
  | x :: rest => bindC (f init x) (fun acc => reduceC f rest acc)
  end.

End JS.

Import JS.

Declare Scope js_scope.
Delimit Scope js_scope with js.
Notation "x <- c ;; k" := (bindC c (fun x => k))
  (at level 61, c at next level, right associativity) : js_scope.

(** ** First binding: HTTP over an in-memory array (lines 1-101) *)

Module Http.

(** The object [log_consumption] pushes (lines 25-34); the fields have
    the source's names behind [ev_]. *)
Record EventRecord : Type := mkEvent {
  ev_id : value;
  ev_user_id : value;
  ev_timestamp : value;
  ev_item : value;
  ev_amount : value;
  ev_unit : value;
  ev_source : value;
  ev_calories : value
}.

(** What the handlers read and write: the array [db] (line 4) and the
    generator behind [crypto.randomUUID()], as the sequence of the
    identifiers it will hand out and the number already drawn. *)
Record World : Type := mkWorld {
  db : list EventRecord;
  uuids : nat -> string;
  drawn : nat
}.

(** A handler's body: it may change the world before it throws. *)
Definition M (A : Type) : Type := World -> completion A * World.

Definition ret {A} (a : A) : M A := fun w => (Normal a, w).

Definition bind {A B} (m : M A) (k : A -> M B) : M B :=
  fun w =>
    match m w with
    | (Normal a, w') => k a w'
    | (Throw e, w') => (Throw e, w')
    | (Unmodelled, w') => (Unmodelled, w')
    end.

Definition throw {A} (e : exn) : M A := fun w => (Throw e, w).

Definition lift {A} (c : completion A) : M A := fun w => (c, w).

Declare Scope http_scope.
Delimit Scope http_scope with http.
Notation "x <- m ;; k" := (bind m (fun x => k))
  (at level 61, m at next level, right associativity) : http_scope.
Notation "m ;; k" := (bind m (fun _ => k))
  (at level 61, right associativity) : http_scope.

Definition crypto_randomUUID : M value :=
  fun w => (Normal (VStr (uuids w (drawn w))),
            mkWorld (db w) (uuids w) (S (drawn w))).

Definition db_push (r : EventRecord) : M unit :=
  fun w => (Normal tt, mkWorld (db w ++ [r]) (uuids w) (drawn w)).

(** [for (const x of xs) body] *)
Fixpoint for_of {A} (xs : list A) (body : A -> M unit) : M unit :=
  match xs with
  | [] => ret tt
  | x :: rest => (body x ;; for_of rest body)%http
  end.

(** [a || b] on conditions, [b] evaluated only when [a] is false. *)
Definition orC (a b : completion bool) : completion bool :=
  (x <- a ;; if x then Normal true else b)%js.

Definition notC (a : completion value) : completion bool :=
  (x <- a ;; Normal (negb (truthy x)))%js.

(** The condition of line 22:
    [!e.timestamp || !e.item || typeof e.amount !== "number" || !e.unit]. *)
Definition invalid_event (e : value) : completion bool :=
  orC (notC (get e "timestamp"))
 (orC (notC (get e "item"))
 (orC (amount <- get e "amount" ;; Normal (negb (typeof amount =? "number")))%js
      (notC (get e "unit")))).

(** The loop body, lines 22-34. *)
Definition ingest (e : value) : M unit :=
  (invalid <- lift (invalid_event e) ;;
   if invalid then throw (Error "Invalid event")
   else
     id <- crypto_randomUUID ;;
     user_id <- lift (get e "user_id") ;;
     timestamp <- lift (get e "timestamp") ;;
     item <- lift (get e "item") ;;
     amount <- lift (get e "amount") ;;
     unit_ <- lift (get e "unit") ;;
     source <- lift (get e "source") ;;
     calories <- lift (get e "calories") ;;
     db_push (mkEvent id
                      (or_else user_id (VStr "u1"))
                      timestamp item amount unit_
                      (or_else source (VStr "manual"))
                      (coalesce calories VNull)))%http.

Record Saved : Type := mkSaved { saved_count : nat }.

(** Lines 19-37. *)
Definition log_consumption (input : value) : M Saved :=
  (input_events <- lift (get_opt input "events") ;;
   let events := if Array_isArray input_events then elements input_events else [] in
   for_of events ingest ;;
   ret (mkSaved (List.length events)))%http.

(** [iso], line 41. *)
Definition iso (s : value) : completion value :=
  slice_0_10 (or_else s (VStr "")).

(** The callback of [db.filter], lines 42-48. *)
Definition keeps (user_id from to : value) (e : EventRecord) : completion bool :=
  if truthy user_id && negb (strict_eq (ev_user_id e) user_id) then Normal false
  else
    (d <- iso (ev_timestamp e) ;;
     below <- (if truthy from then lt d from else Normal false) ;;
     if below then Normal false
     else
       above <- (if truthy to then gt d to else Normal false) ;;
       if above then Normal false else Normal true)%js.

Record Listing : Type := mkListing { events : list EventRecord }.

(** Lines 39-50. *)
Definition list_consumption (input : value) : M Listing :=
  (let args := or_else input (VObj []) in
   user_id <- lift (get args "user_id") ;;
   from <- lift (get args "from") ;;
   to <- lift (get args "to") ;;
   fun w => (evs <- filterC (keeps user_id from to) (db w) ;; Normal (mkListing evs), w)%js)%http.

Record Summary : Type := mkSummary {
  total_calories : value;
  events_count : nat
}.

(** Lines 52-57. *)
Definition summarize_intake (input : value) : M Summary :=
  (let args := or_else input (VObj []) in
   user_id <- lift (get args "user_id") ;;
   from <- lift (get args "from") ;;
   to <- lift (get args "to") ;;
   listing <- list_consumption (VObj [("user_id", user_id); ("from", from); ("to", to)]) ;;
   total <- lift (reduceC (fun s e => add s (or_else (ev_calories e) (VNum 0)))
                          (events listing) (VNum 0)) ;;
   ret (mkSummary total (List.length (events listing))))%http.

(** *** Closed forms of what the handlers compute *)

(** The field [k] of a raw event or of a query's arguments ([undefined]
    when there is none). *)
Definition field (v : value) (k : string) : value :=
  match get v k with
  | Normal x => x
  | _ => VUndefined
  end.

(** The request [{events: es}]. *)
Definition batch (es : list value) : value := VObj [("events", VArr es)].

(** The events a call of [log_consumption] goes through (line 20): those
    of [input.events] when it is an array, none otherwise. *)
Definition submitted (input : value) : list value :=
  match get_opt input "events" with
  | Normal (VArr es) => es
  | _ => []
  end.

(** The object of lines 25-34 for the event [e], under the identifier
    [id]. *)
Definition record_of (id : value) (e : value) : EventRecord :=
  mkEvent id
          (or_else (field e "user_id") (VStr "u1"))
          (field e "timestamp") (field e "item") (field e "amount") (field e "unit")
          (or_else (field e "source") (VStr "manual"))
          (coalesce (field e "calories") VNull).

(** The objects for a whole batch, the identifiers drawn from the [k]-th
    on. *)
Fixpoint records_from (ids : nat -> string) (k : nat) (es : list value) : list EventRecord :=
  match es with
  | [] => []
  | e :: rest => record_of (VStr (ids k)) e :: records_from ids (S k) rest
  end.

(** The object a query destructures its arguments from (lines 40, 53). *)
Definition args_of (input : value) : value := or_else input (VObj []).

End Http.

(** ** Third binding: HTTP over a relational table (lines 213-422) *)

Module Pg.

(** An argument of [client.query]: a value, or the [Date] built from one
    ([new Date(e.timestamp)], line 300). *)
Inductive param : Type :=
| PVal (v : value)
| PDate (arg : value).

Section Database.

(** The contents of the table [consumption_events] (lines 240-250), and
    what the statement of lines 276-290 ([INSERT ... ON CONFLICT (id) DO
    UPDATE]) makes of them with its nine arguments: the new contents, or the
    error the database answers.  Both belong to the database server and are
    left open. *)
Variable Table : Type.
Variable insert_on_conflict_update : list param -> Table -> completion Table.

(** The table as committed, the transaction the client has open (if any)
    with the contents it sees, and the identifier generator. *)
Record World : Type := mkWorld {
  committed : Table;
  pending : option Table;
  uuids : nat -> string;
  drawn : nat
}.

Definition M (A : Type) : Type := World -> completion A * World.

Definition ret {A} (a : A) : M A := fun w => (Normal a, w).

Definition bind {A B} (m : M A) (k : A -> M B) : M B :=
  fun w =>
    match m w with
    | (Normal a, w') => k a w'
    | (Throw e, w') => (Throw e, w')
    | (Unmodelled, w') => (Unmodelled, w')
    end.

Definition throw {A} (e : exn) : M A := fun w => (Throw e, w).

Definition lift {A} (c : completion A) : M A := fun w => (c, w).

(** [try { body } catch (err) { handler }] *)
Definition try_catch {A} (body : M A) (handler : exn -> M A) : M A :=
  fun w =>
    match body w with
    | (Throw err, w') => handler err w'
    | other => other
    end.

Definition crypto_randomUUID : M value :=
  fun w => (Normal (VStr (uuids w (drawn w))),
            mkWorld (committed w) (pending w) (uuids w) (S (drawn w))).

Definition query_BEGIN : M unit :=
  fun w => (Normal tt, mkWorld (committed w) (Some (committed w)) (uuids w) (drawn w)).

Definition query_COMMIT : M unit :=
  fun w =>
    match pending w with
    | Some t => (Normal tt, mkWorld t None (uuids w) (drawn w))
    | None => (Normal tt, w)
    end.

Definition query_ROLLBACK : M unit :=
  fun w => (Normal tt, mkWorld (committed w) None (uuids w) (drawn w)).

(** [client.query(sql, args)], inside the open transaction when there is
    one. *)
Definition query_sql (args : list param) : M unit :=
  fun w =>
    match pending w with
    | Some t =>
        match insert_on_conflict_update args t with
        | Normal t' => (Normal tt, mkWorld (committed w) (Some t') (uuids w) (drawn w))
        | Throw err => (Throw err, w)
        | Unmodelled => (Unmodelled, w)
        end
    | None =>
        match insert_on_conflict_update args (committed w) with
        | Normal t' => (Normal tt, mkWorld t' None (uuids w) (drawn w))
        | Throw err => (Throw err, w)
        | Unmodelled => (Unmodelled, w)
        end
    end.

Fixpoint for_of {A} (xs : list A) (body : A -> M unit) : M unit :=
  match xs with
  | [] => ret tt
  | x :: rest => bind (body x) (fun _ => for_of rest body)
  end.

(** The loop body, lines 292-307; the condition of line 292 is that of
    line 22. *)
Definition ingest (e : value) : M unit :=
  bind (lift (Http.invalid_event e)) (fun invalid =>
  if invalid then throw (Error "Invalid event")
  else
    bind (lift (get e "id")) (fun e_id =>
    bind (if truthy e_id then ret e_id else crypto_randomUUID) (fun id =>
    bind (lift (get e "user_id")) (fun e_user_id =>
    let userId := or_else e_user_id (VStr "u1") in
    bind (lift (get e "timestamp")) (fun timestamp =>
    bind (lift (get e "item")) (fun item =>
    bind (lift (get e "amount")) (fun amount =>
    bind (lift (get e "unit")) (fun unit_ =>
    bind (lift (get e "source")) (fun source =>
    bind (lift (get e "calories")) (fun calories =>
    bind (lift (get e "notes")) (fun notes =>
    query_sql [PVal id; PVal userId; PDate timestamp; PVal item; PVal amount;
               PVal unit_; PVal (or_else source (VStr "manual"));
               PVal (coalesce calories VNull); PVal (coalesce notes VNull)]))))))))))).

(** Lines 269-317; [pool.connect()] and [client.release()] do not touch
    the table and are left out. *)
Definition log_consumption (input : value) : M Http.Saved :=
  bind (lift (get_opt input "events")) (fun input_events =>
  let events := if Array_isArray input_events then elements input_events else [] in
  if Nat.eqb (List.length events) 0 then ret (Http.mkSaved 0)
  else
    try_catch
      (bind query_BEGIN (fun _ =>
       bind (for_of events ingest) (fun _ =>
       bind query_COMMIT (fun _ =>
       ret (Http.mkSaved (List.length events))))))
      (fun err => bind query_ROLLBACK (fun _ => throw err))).

End Database.

Arguments mkWorld {Table}.
Arguments committed {Table}.
Arguments pending {Table}.
Arguments uuids {Table}.
Arguments drawn {Table}.
Arguments log_consumption {Table}.

End Pg.

(** ** The event-store contract, in the specification's words *)

Module Contract.

Import Http.

(** *** Validator (specification 4.1) *)

(** The enumeration of the event schema (line 121) and of the table's
    [CHECK] (line 246). *)
Definition unit_enum : list string := ["g"; "ml"; "piece"; "serving"].

Definition nonempty_string (v : value) : bool :=
  match v with
  | VStr s => negb (s =? "")
  | _ => false
  end.

Definition absent_or_empty (v : value) : bool :=
  match v with
  | VUndefined | VNull => true
  | VStr s => s =? ""
  | _ => false
  end.

Definition is_number (v : value) : bool :=
  match v with
  | VNum _ => true
  | _ => false
  end.

Definition finite_number (v : value) : bool :=
  match v with
  | VNum x => PrimFloat.is_finite x
  | _ => false
  end.

Definition in_unit_enum (v : value) : bool :=
  match v with
  | VStr s => existsb (String.eqb s) unit_enum
  | _ => false
  end.

(** The four checks as the specification lists them. *)
Definition validator (e : value) : bool :=
  nonempty_string (field e "timestamp")
  && nonempty_string (field e "item")
  && finite_number (field e "amount")
  && in_unit_enum (field e "unit").

(** The same with check 3 reduced to "is a number". *)
Definition validator_any_number (e : value) : bool :=
  nonempty_string (field e "timestamp")
  && nonempty_string (field e "item")
  && is_number (field e "amount")
  && in_unit_enum (field e "unit").

(** Some required field is missing, empty or (the amount) not a number. *)
Definition lacks_required (e : value) : bool :=
  absent_or_empty (field e "timestamp")
  || absent_or_empty (field e "item")
  || negb (is_number (field e "amount"))
  || absent_or_empty (field e "unit").

(** What the event schema of the tool-protocol binding (lines 112-124)
    asks of an event, in words: an object whose timestamp, item and source
    are strings, whose amount is a number, whose unit is one of the four,
    and whose id and user_id are strings when they are there. *)
Definition is_object (v : value) : bool :=
  match v with
  | VObj _ => true
  | _ => false
  end.

Definition is_string (v : value) : bool :=
  match v with
  | VStr _ => true
  | _ => false
  end.

Definition string_when_present (v : value) : bool :=
  match v with
  | VUndefined => true
  | VStr _ => true
  | _ => false
  end.

Definition schema_validator (e : value) : bool :=
  is_object e
  && is_string (field e "timestamp")
  && is_string (field e "item")
  && is_number (field e "amount")
  && in_unit_enum (field e "unit")
  && is_string (field e "source")
  && string_when_present (field e "id")
  && string_when_present (field e "user_id").

(** *** Records against the events they were made from *)



(** *** Queries (specification 4.2) *)

Definition has_string_timestamp (r : EventRecord) : Prop :=
  exists s, ev_timestamp r = VStr s.

Definition timestamp_string (r : EventRecord) : string :=
  match ev_timestamp r with
  | VStr s => s
  | _ => ""
  end.

(** The calendar date: the first 10 characters of the timestamp. *)
Definition date_of (r : EventRecord) : string :=
  substring 0 10 (timestamp_string r).

(** A query with no owner and no date bounds. *)
Definition no_filter (input : value) : Prop :=
  nullish (field (args_of input) "user_id") = true /\
  nullish (field (args_of input) "from") = true /\
  nullish (field (args_of input) "to") = true.

(** An argument of a query is a string when it is there at all. *)
Definition string_or_absent (v : value) : Prop :=
  v = VUndefined \/ v = VNull \/ exists s, v = VStr s.

Definition absent (v : value) : Prop := v = VUndefined \/ v = VNull.

(** The match condition as the specification words it. *)
Definition matches_as_stated (user_id from to : value) (r : EventRecord) : Prop :=
  (absent user_id \/ ev_user_id r = user_id) /\
  (absent from \/ exists s, from = VStr s /\ String.leb s (date_of r) = true) /\
  (absent to \/ exists s, to = VStr s /\ String.leb (date_of r) s = true).

(** The same, an empty argument counting as an absent one. *)
Definition matches (user_id from to : value) (r : EventRecord) : Prop :=
  (absent_or_empty user_id = true \/ ev_user_id r = user_id) /\
  (absent_or_empty from = true \/ exists s, from = VStr s /\ String.leb s (date_of r) = true) /\
  (absent_or_empty to = true \/ exists s, to = VStr s /\ String.leb (date_of r) s = true).

(** The decision [keeps] takes on a record with a string timestamp, for
    arguments that are strings when present. *)
Definition keeps_typed (user_id from to : value) (r : EventRecord) : bool :=
  (negb (truthy user_id) || strict_eq (ev_user_id r) user_id)
  && (negb (truthy from) || match from with VStr s => String.leb s (date_of r) | _ => true end)
  && (negb (truthy to) || match to with VStr s => String.leb (date_of r) s | _ => true end).

(** Ascending by the full timestamp string. *)
Fixpoint ascending (l : list string) : bool :=
  match l with
  | a :: (b :: _) as rest => String.leb a b && ascending rest
  | _ => true
  end.

Definition ordered_by_timestamp (evs : list EventRecord) : bool :=
  ascending (map timestamp_string evs).

(** *** Aggregation (specification 4.5) *)

(** The calories of a record, an absent value counting as 0. *)
Definition calories_or_zero (r : EventRecord) : float :=
  match ev_calories r with
  | VNum x => x
  | _ => 0%float
  end.

Definition sum_calories (evs : list EventRecord) : float :=
  fold_left (fun s r => (s + calories_or_zero r)%float) evs 0%float.

(** Calories are absent, or a number other than NaN. *)
Definition calories_number (r : EventRecord) : Prop :=
  nullish (ev_calories r) = true \/
  exists x, ev_calories r = VNum x /\ PrimFloat.is_nan x = false.

(** Calories are not the negative zero. *)
Definition calories_not_negative_zero (r : EventRecord) : Prop :=
  ev_calories r <> VNum neg_zero.

(** Two totals are the same number: the same binary64 value, or two zeros
    (0 and -0, which [===] and [JSON.stringify] do not tell apart). *)
Definition same_number (x y : float) : Prop :=
  x = y \/ (PrimFloat.eqb x 0 = true /\ PrimFloat.eqb y 0 = true).

End Contract.

(** ** Sample requests *)

Module Sample.

Import Http Contract.

Definition uuids (n : nat) : string :=
  "3f2c1a9e-0000-4000-8000-" ++ String.concat "" (repeat "0" (11 - n)) ++ String.concat "" (repeat "1" (S n)).

(** A process that has just started. *)
Definition fresh : World := mkWorld [] uuids 0.

Definition apple : value :=
  VObj [("timestamp", VStr "2024-01-15T08:30:00Z"); ("item", VStr "apple");
        ("amount", VNum 1); ("unit", VStr "piece"); ("calories", VNum 95)].

(** An event without [unit]. *)
Definition no_unit : value :=
  VObj [("timestamp", VStr "2024-01-15T09:00:00Z"); ("item", VStr "tea");
        ("amount", VNum 250)].

(** A second event, later the same day. *)
Definition soup : value :=
  VObj [("timestamp", VStr "2024-01-15T12:45:00Z"); ("item", VStr "soup");
        ("amount", VNum 300); ("unit", VStr "ml")].

(** An event that names the identifier it wants to be stored under. *)
Definition pear_under (id : string) : value :=
  VObj [("id", VStr id); ("timestamp", VStr "2024-01-16T10:00:00Z");
        ("item", VStr "pear"); ("amount", VNum 2); ("unit", VStr "piece")].

(** [{"amount": 1e999}] parses to an infinite amount. *)
Definition infinite_amount : value :=
  VObj [("timestamp", VStr "2024-01-15T08:30:00Z"); ("item", VStr "rice");
        ("amount", VNum infinity); ("unit", VStr "g")].

(** A unit outside the enumeration. *)
Definition kilogram : value :=
  VObj [("timestamp", VStr "2024-01-15T08:30:00Z"); ("item", VStr "rice");
        ("amount", VNum 1); ("unit", VStr "kg")].


(** Three events of one owner, with calories 100, absent and 50. *)
Definition three_meals : value :=
  batch [VObj [("user_id", VStr "ann"); ("timestamp", VStr "2024-03-01T08:00:00Z");
               ("item", VStr "porridge"); ("amount", VNum 200); ("unit", VStr "g");
               ("calories", VNum 100)];
         VObj [("user_id", VStr "ann"); ("timestamp", VStr "2024-03-01T13:00:00Z");
               ("item", VStr "water"); ("amount", VNum 500); ("unit", VStr "ml")];
         VObj [("user_id", VStr "ann"); ("timestamp", VStr "2024-03-01T19:00:00Z");
               ("item", VStr "plum"); ("amount", VNum 1); ("unit", VStr "piece");
               ("calories", VNum 50)]].

(** One event on the given timestamp. *)
Definition meal_at (timestamp : string) : value :=
  VObj [("timestamp", VStr timestamp); ("item", VStr "bread");
        ("amount", VNum 1); ("unit", VStr "serving")].

(** An event whose calories are the string "100". *)
Definition quoted_calories : value :=
  VObj [("timestamp", VStr "2024-03-01T08:00:00Z"); ("item", VStr "porridge");
        ("amount", VNum 200); ("unit", VStr "g"); ("calories", VStr "100")].


End Sample.

(** ** First binding, continued: the request handler (lines 6-16, 60-96) *)

Module HttpServer.

Import Http.

(** What [JSON.parse(body || "{}")] (line 81) makes of the request's
    body: the value it reads (an empty body reads as [{}]), or the
    [SyntaxError] it throws. *)
Inductive Body : Type :=
| Parsed (payload : value)
| Malformed.

Record Request : Type := mkRequest {
  method : string;
  url : string;
  body : Body
}.

(** What a tool hands back to [sendJson]. *)
Inductive Data : Type :=
| DSaved (r : Saved)
| DListing (r : Listing)
| DSummary (r : Summary).

(** The text of an error: a string of the program, or the message the
    engine gives to the errors it raises itself. *)
Inductive Message : Type :=
| Msg (text : string)
| EngineMsg.

(** The object given to [JSON.stringify], or what [res.end] is given
    directly. *)
Inductive Content : Type :=
| Text (s : string)
| NoContent
| ErrorJson (message : Message)
| DataJson (data : Data).

(** A response: status, headers ([Content-Length], which is the length of
    the serialised body, apart) and content. *)
Record Response : Type := mkResponse {
  status : nat;
  headers : list (string * string);
  content : Content
}.

Definition cors_headers : list (string * string) :=
  [("Access-Control-Allow-Origin", "*");
   ("Access-Control-Allow-Headers", "Content-Type");
   ("Access-Control-Allow-Methods", "POST, OPTIONS, GET")].

(** Lines 6-16. *)
Definition sendJson (code : nat) (obj : Content) : Response :=
  mkResponse code (("Content-Type", "application/json") :: cors_headers) obj.

(** The property names [tools] inherits from [Object.prototype]: [name in
    tools] (line 84) holds for them too. *)
Definition inherited_names : list string :=
  ["constructor"; "__defineGetter__"; "__defineSetter__"; "hasOwnProperty";
   "__lookupGetter__"; "__lookupSetter__"; "isPrototypeOf";
   "propertyIsEnumerable"; "toString"; "valueOf"; "__proto__"; "toLocaleString"].

Definition tool_names : list string :=
  ["log_consumption"; "list_consumption"; "summarize_intake"].

(** [tools[name](input)] for the three own properties of [tools]
    (lines 18-58). *)
Definition call_tool (name : string) (input : value) : M Data :=
  if name =? "log_consumption" then
    bind (log_consumption input) (fun r => ret (DSaved r))
  else if name =? "list_consumption" then
    bind (list_consumption input) (fun r => ret (DListing r))
  else
    bind (summarize_intake input) (fun r => ret (DSummary r)).

(** [String(e.message || e)], line 90. *)
Definition error_text (e : exn) : Message :=
  match e with
  | Error message => if message =? "" then Msg "Error" else Msg message
  | TypeError => EngineMsg
  end.

(** The body of the [try] of lines 80-91, once the body is parsed.  A
    name that is not a string, or that names an inherited property, is
    outside the fragment. *)
Definition dispatch (payload : value) : World -> completion Response * World :=
  fun w =>
    match get_opt payload "tool", get_opt payload "input" with
    | Normal name, Normal input =>
        if negb (truthy name) then
          (Normal (sendJson 400 (ErrorJson (Msg "Unknown or missing tool"))), w)
        else
          match name with
          | VStr s =>
              if existsb (String.eqb s) tool_names then
                match call_tool s input w with
                | (Normal data, w') => (Normal (sendJson 200 (DataJson data)), w')
                | (Throw e, w') => (Normal (sendJson 400 (ErrorJson (error_text e))), w')
                | (Unmodelled, w') => (Unmodelled, w')
                end
              else if existsb (String.eqb s) inherited_names then (Unmodelled, w)
              else (Normal (sendJson 400 (ErrorJson (Msg "Unknown or missing tool"))), w)
          | _ => (Unmodelled, w)
          end
    | Throw e, _ | Normal _, Throw e =>
        (Normal (sendJson 400 (ErrorJson (error_text e))), w)
    | _, _ => (Unmodelled, w)
    end.

(** The request listener, lines 60-96. *)
Definition handle (req : Request) : World -> completion Response * World :=
  fun w =>
    if (method req =? "GET") && (url req =? "/") then
      (Normal (mkResponse 200 [("Content-Type", "text/plain")] (Text "OK")), w)
    else if method req =? "OPTIONS" then
      (Normal (mkResponse 204 cors_headers NoContent), w)
    else if method req =? "POST" then
      match body req with
      | Malformed => (Normal (sendJson 400 (ErrorJson EngineMsg)), w)
      | Parsed payload => dispatch payload w
      end
    else
      (Normal (sendJson 404 (ErrorJson (Msg "Not found"))), w).

End HttpServer.

(** ** Second binding: the tool-protocol server (lines 105-211) *)

Module Mcp.

(** The records are the submitted objects themselves (line 174); [nanoid]
    (line 109) is the sequence of the identifiers it will hand out and the
    number already drawn. *)
Record World : Type := mkWorld {
  db : list value;
  ids : nat -> string;
  drawn : nat
}.

Definition M (A : Type) : Type := World -> completion A * World.

Definition ret {A} (a : A) : M A := fun w => (Normal a, w).

Definition bind {A B} (m : M A) (k : A -> M B) : M B :=
  fun w =>
    match m w with
    | (Normal a, w') => k a w'
    | (Throw e, w') => (Throw e, w')
    | (Unmodelled, w') => (Unmodelled, w')
    end.

Definition throw {A} (e : exn) : M A := fun w => (Throw e, w).

Definition lift {A} (c : completion A) : M A := fun w => (c, w).

Definition nanoid : M value :=
  fun w => (Normal (VStr (ids w (drawn w))), mkWorld (db w) (ids w) (S (drawn w))).

Definition db_push (e : value) : M unit :=
  fun w => (Normal tt, mkWorld (db w ++ [e]) (ids w) (drawn w)).

(** [xs.forEach(body)] *)
Fixpoint forEach {A} (xs : list A) (body : A -> M unit) : M unit :=
  match xs with
  | [] => ret tt
  | x :: rest => bind (body x) (fun _ => forEach rest body)
  end.

(** Writing an own property: the value is replaced where the name is,
    the property is added at the end otherwise. *)
Fixpoint set_prop (k : string) (v : value) (props : list (string * value))
  : list (string * value) :=
  match props with
  | [] => [(k, v)]
  | (k', v') :: rest =>
      if k' =? k then (k', v) :: rest else (k', v') :: set_prop k v rest
  end.

(** [o.k = v] in a module (strict mode): it throws on what is not an
    object; named properties of arrays are outside the fragment. *)
Definition assign (o : value) (k : string) (v : value) : completion value :=
  match o with
  | VObj props => Normal (VObj (set_prop k v props))
  | VArr _ => Unmodelled
  | _ => Throw TypeError
  end.

(** *** The compiled [schema] (lines 112-127) *)

Definition is_string (v : value) : bool :=
  match v with
  | VStr _ => true
  | _ => false
  end.

Definition is_number (v : value) : bool :=
  match v with
  | VNum _ => true
  | _ => false
  end.

(** [required], line 114. *)
Definition required : list string := ["timestamp"; "item"; "amount"; "unit"; "source"].

(** The [enum] of line 121. *)
Definition unit_enum : list string := ["g"; "ml"; "piece"; "serving"].

(** A keyword of [properties] applies to a property that is there. *)
Definition property_ok (props : list (string * value)) (k : string)
           (check : value -> bool) : bool :=
  match lookup k props with
  | VUndefined => true
  | v => check v
  end.

(** [validate], line 127: the validator [ajv] compiles from [schema],
    numbers being whatever has type "number" ([strict: false]). *)
Definition validate (e : value) : bool :=
  match e with
  | VObj props =>
      forallb (fun k => negb (strict_eq (lookup k props) VUndefined)) required
      && property_ok props "id" is_string
      && property_ok props "user_id" is_string
      && property_ok props "timestamp" is_string
      && property_ok props "item" is_string
      && property_ok props "amount" is_number
      && property_ok props "unit"
           (fun v => is_string v && existsb (strict_eq v) (map VStr unit_enum))
      && property_ok props "source" is_string
  | _ => false
  end.

(** [iso], line 129. *)
Definition iso (s : value) : completion value := slice_0_10 s.

(** The callback of [list], lines 131-137. *)
Definition keeps (uid from to : value) (e : value) : completion bool :=
  bindC (if truthy uid
         then bindC (get e "user_id") (fun e_user_id =>
                     Normal (negb (strict_eq e_user_id uid)))
         else Normal false) (fun other =>
  if other then Normal false
  else
    bindC (get e "timestamp") (fun timestamp =>
    bindC (iso timestamp) (fun d =>
    bindC (if truthy from then lt d from else Normal false) (fun below =>
    if below then Normal false
    else
      bindC (if truthy to then gt d to else Normal false) (fun above =>
      if above then Normal false else Normal true))))).

(** [list], lines 130-138. *)
Definition list (uid from to : value) : M (Datatypes.list value) :=
  fun w => (filterC (keeps uid from to) (db w), w).

(** The callback of [forEach], lines 171-174. *)
Definition store (uid : value) (e : value) : M unit :=
  if negb (validate e) then throw (Error "Invalid event")
  else
    bind (lift (get e "id")) (fun e_id =>
    bind (if truthy e_id then ret e_id else nanoid) (fun id =>
    bind (lift (assign e "id" id)) (fun e1 =>
    bind (lift (get e1 "user_id")) (fun e_user_id =>
    bind (lift (assign e1 "user_id" (or_else e_user_id uid))) (fun e2 =>
    db_push e2))))).

(** The handler of [log_consumption], lines 168-177. *)
Definition log_consumption (input user : value) : M Http.Saved :=
  bind (lift (get_opt user "id")) (fun user_id =>
  let uid := or_else user_id (VStr "u1") in
  bind (lift (get input "events")) (fun events =>
  match events with
  | VArr es =>
      bind (forEach es (store uid)) (fun _ => ret (Http.mkSaved (List.length es)))
  | _ => throw TypeError
  end)).

(** The handler of [list_consumption], line 187. *)
Definition list_consumption (input : value) : M (Datatypes.list value) :=
  bind (lift (get input "user_id")) (fun user_id =>
  bind (lift (get input "from")) (fun from =>
  bind (lift (get input "to")) (fun to =>
  list user_id from to))).

Record Summary : Type := mkSummary {
  total_calories : value;
  events_count : nat
}.

(** The handler of [summarize_intake], lines 203-207. *)
Definition summarize_intake (input : value) : M Summary :=
  bind (lift (get input "user_id")) (fun user_id =>
  bind (lift (get input "from")) (fun from =>
  bind (lift (get input "to")) (fun to =>
  bind (list user_id from to) (fun ev =>
  bind (lift (reduceC (fun sum e =>
                         bindC (get e "calories") (fun calories =>
                         add sum (coalesce calories (VNum 0))))
                      ev (VNum 0))) (fun total =>
  ret (mkSummary total (List.length ev))))))).

(** What the resource handler serialises (line 153). *)
Record Resource : Type := mkResource {
  res_user_id : value;
  res_date : value;
  res_events : Datatypes.list value
}.

(** The handler of the resource [consumption-events], lines 147-155, up
    to the object given to [JSON.stringify]. *)
Definition consumption_events (params : value) : M Resource :=
  bind (lift (get params "userId")) (fun userId =>
  bind (lift (get params "date")) (fun date =>
  bind (list userId date date) (fun events =>
  ret (mkResource userId date events)))).

End Mcp.

(** ** Third binding, continued: the conditions of the two queries
       (lines 321-326 and 355-360, the same text) *)

Module PgQuery.

(** [String(n)] for a count. *)
Definition decimal (n : nat) : string := NilEmpty.string_of_uint (Nat.to_uint n).

(** [if (v) { where.push(`test$${args.length + 1}`); args.push(v); }] *)
Definition push_condition (test : string) (v : value)
           (acc : list string * list value) : list string * list value :=
  if truthy v then
    ((fst acc ++ [(test ++ decimal (List.length (snd acc) + 1))%string])%list,
     (snd acc ++ [v])%list)
  else acc.

(** [where] and [args] as lines 321-326 leave them. *)
Definition conditions (input : value) : completion (list string * list value) :=
  let request := or_else input (VObj []) in
  bindC (get request "user_id") (fun user_id =>
  bindC (get request "from") (fun from =>
  bindC (get request "to") (fun to =>
  Normal (push_condition "DATE(ts) <= $" to
         (push_condition "DATE(ts) >= $" from
         (push_condition "user_id = $" user_id ([], []))))))).

(** [where.length ? "WHERE " + where.join(" AND ") : ""], lines 332, 368. *)
Definition where_clause (tests : list string) : string :=
  match tests with
  | [] => ""
  | _ => ("WHERE " ++ String.concat " AND " tests)%string
  end.

End PgQuery.

(** ** What the stores hold *)

Module Shape.

Import Http.

(** *** In-memory binding *)

(** The identifiers in [db] are identifiers the generator has handed
    out, in the order it did. *)
Definition ids_generated (w : World) : Prop :=
  exists ks,
    map ev_id (db w) = map (fun k => VStr (uuids w k)) ks /\
    StronglySorted Nat.lt ks /\
    Forall (fun k => k < drawn w) ks.

(** A record that went through line 22 and the defaults of lines 27, 32,
    33. *)
Definition checked (r : EventRecord) : Prop :=
  truthy (ev_timestamp r) = true /\
  truthy (ev_item r) = true /\
  (exists x, ev_amount r = VNum x) /\
  truthy (ev_unit r) = true /\
  truthy (ev_user_id r) = true /\
  truthy (ev_source r) = true /\
  ev_calories r <> VUndefined /\
  (exists s, ev_id r = VStr s).

(** *** Tool-protocol binding *)

(** An object with the typed properties the schema requires, and an
    owner. *)
Definition schema_record (e : value) : Prop :=
  (exists props, e = VObj props) /\
  (exists s, field e "timestamp" = VStr s) /\
  (exists s, field e "item" = VStr s) /\
  (exists x, field e "amount" = VNum x) /\
  (exists s, field e "unit" = VStr s /\ In s Mcp.unit_enum) /\
  (exists s, field e "source" = VStr s) /\
  truthy (field e "user_id") = true.

(** [user?.id || "u1"], line 169. *)
Definition caller (user : value) : value :=
  or_else (match get_opt user "id" with Normal x => x | _ => VUndefined end) (VStr "u1").

(** The stored object against the submitted one: [id] and [user_id] as
    submitted or filled in, everything else as it was. *)
Definition filled_in (uid : value) (e r : value) : Prop :=
  (forall k, k <> "id" -> k <> "user_id" -> field r k = field e k) /\
  (truthy (field e "id") = true -> field r "id" = field e "id") /\
  (truthy (field e "id") = false -> exists s, field r "id" = VStr s) /\
  (truthy (field e "user_id") = true -> field r "user_id" = field e "user_id") /\
  (truthy (field e "user_id") = false -> field r "user_id" = uid).

(** The first 10 characters of an object's timestamp. *)
Definition date_of_object (e : value) : string :=
  match field e "timestamp" with
  | VStr s => substring 0 10 s
  | _ => ""
  end.

(** The decision the callback of [list] takes on such an object, for
    bounds that are strings when present. *)
Definition keeps_object (uid from to : value) (e : value) : bool :=
  (negb (truthy uid) || strict_eq (field e "user_id") uid)
  && (negb (truthy from)
      || match from with VStr s => String.leb s (date_of_object e) | _ => true end)
  && (negb (truthy to)
      || match to with VStr s => String.leb (date_of_object e) s | _ => true end).

(** Calories are a number or absent. *)
Definition calories_number_or_absent (e : value) : Prop :=
  nullish e = false /\
  (nullish (field e "calories") = true \/ exists x, field e "calories" = VNum x).

Definition calories_of (e : value) : float :=
  match field e "calories" with
  | VNum x => x
  | _ => 0%float
  end.

Definition sum_of (evs : list value) : float :=
  fold_left (fun s e => (s + calories_of e)%float) evs 0%float.

(** The records of one owner on one day. *)
Definition on_day (owner day : string) (e : value) : bool :=
  strict_eq (field e "user_id") (VStr owner)
  && match field e "timestamp" with
     | VStr s => substring 0 10 s =? day
     | _ => false
     end.

(** *** Relational binding *)

(** The nine arguments of line 297 for the event [e] under the
    identifier [id]. *)
Definition params_of (id : value) (e : value) : list Pg.param :=
  [Pg.PVal id;
   Pg.PVal (or_else (field e "user_id") (VStr "u1"));
   Pg.PDate (field e "timestamp");
   Pg.PVal (field e "item");
   Pg.PVal (field e "amount");
   Pg.PVal (field e "unit");
   Pg.PVal (or_else (field e "source") (VStr "manual"));
   Pg.PVal (coalesce (field e "calories") VNull);
   Pg.PVal (coalesce (field e "notes") VNull)].

(** The statements of a batch run one after the other on a table: the
    table they leave (or the first error), and the number of identifiers
    drawn on the way. *)
Fixpoint run_inserts {Table} (statement : list Pg.param -> Table -> completion Table)
         (ids : nat -> string) (k : nat) (es : list value) (t : Table)
  : completion Table * nat :=
  match es with
  | [] => (Normal t, k)
  | e :: rest =>
      let id := if truthy (field e "id") then field e "id" else VStr (ids k) in
      let k' := if truthy (field e "id") then k else S k in
      match statement (params_of id e) t with
      | Normal t' => run_inserts statement ids k' rest t'
      | Throw err => (Throw err, k')
      | Unmodelled => (Unmodelled, k')
      end
  end.

End Shape.

(** ** More sample data *)

Module Fixture.

(** Identifiers as [nanoid] makes them. *)
Definition ids (n : nat) : string :=
  ("k3v9" ++ String.concat "" (repeat "a" (7 - n)) ++ String.concat "" (repeat "b" (S n)))%string.

Definition started : Mcp.World := Mcp.mkWorld [] ids 0.

(** An event with every required property of the schema. *)
Definition toast : value :=
  VObj [("timestamp", VStr "2024-05-02T07:15:00Z"); ("item", VStr "toast");
        ("amount", VNum 2); ("unit", VStr "piece"); ("source", VStr "manual");
        ("calories", VNum 160); ("notes", VStr "with butter")].

(** The same under an identifier and an owner of the caller's. *)
Definition juice : value :=
  VObj [("id", VStr "evt-7"); ("user_id", VStr "ann");
        ("timestamp", VStr "2024-05-02T07:20:00Z"); ("item", VStr "juice");
        ("amount", VNum 200); ("unit", VStr "ml"); ("source", VStr "import")].

(** An event of the schema with an empty timestamp and an empty item. *)
Definition undated : value :=
  VObj [("timestamp", VStr ""); ("item", VStr "");
        ("amount", VNum 2); ("unit", VStr "piece"); ("source", VStr "manual")].

(** An event with a number where the timestamp should be. *)
Definition numbered : value :=
  VObj [("timestamp", VNum 1714634100000); ("item", VStr "toast");
        ("amount", VNum 2); ("unit", VStr "piece")].

(** A table that keeps the argument lists it was given, and a statement
    that refuses units outside the enumeration. *)
Definition checked_insert (args : list Pg.param) (t : list (list Pg.param))
  : completion (list (list Pg.param)) :=
  match nth 5 args (Pg.PVal VUndefined) with
  | Pg.PVal (VStr u) =>
      if existsb (String.eqb u) Mcp.unit_enum then Normal (t ++ [args])%list
      else Throw (Error "violates check constraint")
  | _ => Throw (Error "violates check constraint")
  end.

Definition empty_table : Pg.World (list (list Pg.param)) :=
  Pg.mkWorld [] None Sample.uuids 0.

End Fixture.

(** * Properties *)

Import Http Contract.
Open Scope list_scope.

(** ** Ingestion *)

Lemma get_opt_never_throws (v : value) (k : string) :
  exists x, get_opt v k = Normal x.
Proof.
  destruct v; cbn; eauto.
Qed.

(** C9: an empty [events] array makes [log_consumption] return
    [{saved_count: 0}] and leave the store as it was, in the in-memory
    binding and in the relational one (whatever the database does). *)
Theorem log_consumption_empty_batch (input : value) :
  get_opt input "events" = Normal (VArr []) ->
  (forall w, Http.log_consumption input w = (Normal (mkSaved 0), w)) /\
  (forall Table statement (w : Pg.World Table),
      Pg.log_consumption statement input w = (Normal (mkSaved 0), w)).
Proof.
  intros Hev; split; intros.
  - unfold Http.log_consumption, bind, lift. rewrite Hev. reflexivity.
  - unfold Pg.log_consumption, Pg.bind, Pg.lift. rewrite Hev. reflexivity.
Qed.

Lemma log_consumption_empty_batch_witness :
  get_opt (batch []) "events" = Normal (VArr []) /\
  Http.log_consumption (batch []) Sample.fresh = (Normal (mkSaved 0), Sample.fresh).
Proof.
  split; [reflexivity|].
  apply (log_consumption_empty_batch (batch [])). reflexivity.
Defined.

(** C10: when [events] is missing or is not an array, [log_consumption]
    does not fail: it returns [{saved_count: 0}] and leaves the store as it
    was, in both bindings. *)
Theorem log_consumption_without_array (input : value) :
  (forall l, get_opt input "events" <> Normal (VArr l)) ->
  (forall w, Http.log_consumption input w = (Normal (mkSaved 0), w)) /\
  (forall Table statement (w : Pg.World Table),
      Pg.log_consumption statement input w = (Normal (mkSaved 0), w)).
Proof.
  intros Hev.
  destruct (get_opt_never_throws input "events") as [x Hx].
  assert (Hna : Array_isArray x = false).
  { destruct x; try reflexivity. exfalso. apply (Hev elems). exact Hx. }
  split; intros.
  - unfold Http.log_consumption, bind, lift. rewrite Hx, Hna. reflexivity.
  - unfold Pg.log_consumption, Pg.bind, Pg.lift. rewrite Hx, Hna. reflexivity.
Qed.

Lemma log_consumption_without_array_witness :
  Http.log_consumption (VObj [("events", VStr "apple")]) Sample.fresh
  = (Normal (mkSaved 0), Sample.fresh)
  /\ Http.log_consumption VNull Sample.fresh = (Normal (mkSaved 0), Sample.fresh).
Proof.
  split.
  - apply (log_consumption_without_array (VObj [("events", VStr "apple")])).
    intros l H. discriminate H.
  - apply (log_consumption_without_array VNull).
    intros l H. discriminate H.
Defined.

(** *** What the validity check of line 22 computes *)

Lemma get_field (e : value) (k : string) :
  nullish e = false -> get e k = Normal (field e k).
Proof.
  destruct e; cbn; intros H; try discriminate H; reflexivity.
Qed.

Lemma invalid_event_nullish (e : value) :
  nullish e = true -> invalid_event e = Throw TypeError.
Proof.
  destruct e; cbn; intros H; try discriminate H; reflexivity.
Qed.

Lemma typeof_number (v : value) :
  (typeof v =? "number") = is_number v.
Proof.
  destruct v; reflexivity.
Qed.

Lemma invalid_event_fields (e : value) :
  nullish e = false ->
  invalid_event e =
  Normal (negb (truthy (field e "timestamp"))
          || (negb (truthy (field e "item"))
          || (negb (is_number (field e "amount"))
          || negb (truthy (field e "unit"))))).
Proof.
  intros H. unfold invalid_event, orC, notC.
  rewrite !(get_field e) by exact H. cbn [bindC].
  rewrite typeof_number.
  destruct (truthy (field e "timestamp")); cbn; [|reflexivity].
  destruct (truthy (field e "item")); cbn; [|reflexivity].
  destruct (is_number (field e "amount")); cbn; [|reflexivity].
  destruct (truthy (field e "unit")); reflexivity.
Qed.

Lemma invalid_event_not_nullish (e : value) (b : bool) :
  invalid_event e = Normal b -> nullish e = false.
Proof.
  intros H. destruct (nullish e) eqn:E; [|reflexivity].
  rewrite (invalid_event_nullish e E) in H. discriminate H.
Qed.

(** *** What one turn of the loop does *)

Lemma ingest_accepts (e : value) (w : World) :
  invalid_event e = Normal false ->
  ingest e w =
  (Normal tt,
   mkWorld (db w ++ [record_of (VStr (uuids w (drawn w))) e]) (uuids w) (S (drawn w))).
Proof.
  intros H. pose proof (invalid_event_not_nullish e false H) as Hn.
  unfold ingest, bind, lift. rewrite H.
  unfold crypto_randomUUID. rewrite !(get_field e) by exact Hn.
  reflexivity.
Qed.

Lemma ingest_rejects (e : value) (w : World) :
  invalid_event e = Normal true ->
  ingest e w = (Throw (Error "Invalid event"), w).
Proof.
  intros H. unfold ingest, bind, lift. rewrite H. reflexivity.
Qed.

Lemma ingest_null (e : value) (w : World) :
  nullish e = true -> ingest e w = (Throw TypeError, w).
Proof.
  intros H. unfold ingest, bind, lift.
  rewrite (invalid_event_nullish e H). reflexivity.
Qed.

(** Every turn leaves the generator's sequence alone and only appends to
    [db]; what it appends was made from the event of that turn. *)
Lemma ingest_appends (e : value) (w : World) :
  exists recs,
    db (snd (ingest e w)) = db w ++ recs /\
    uuids (snd (ingest e w)) = uuids w /\
    Forall (fun r => r = record_of (ev_id r) e /\ invalid_event e = Normal false) recs.
Proof.
  destruct (invalid_event e) as [[|]| |] eqn:E.
  - rewrite (ingest_rejects e w E). exists []. cbn. rewrite app_nil_r. auto.
  - rewrite (ingest_accepts e w E). eexists. cbn. split; [reflexivity|].
    split; [reflexivity|]. constructor; [|constructor]. split; reflexivity.
  - exists []. unfold ingest, bind, lift. rewrite E. cbn. rewrite app_nil_r. auto.
  - exists []. unfold ingest, bind, lift. rewrite E. cbn. rewrite app_nil_r. auto.
Qed.

Lemma for_of_cons {A} (x : A) (xs : list A) (body : A -> M unit) (w : World) :
  for_of (x :: xs) body w =
  match body x w with
  | (Normal _, w') => for_of xs body w'
  | (Throw err, w') => (Throw err, w')
  | (Unmodelled, w') => (Unmodelled, w')
  end.
Proof.
  reflexivity.
Qed.

Lemma for_of_ingest_appends (es : list value) (w : World) :
  exists recs,
    db (snd (for_of es ingest w)) = db w ++ recs /\
    uuids (snd (for_of es ingest w)) = uuids w /\
    Forall (fun r => exists e, In e es /\ r = record_of (ev_id r) e
                               /\ invalid_event e = Normal false) recs.
Proof.
  revert w. induction es as [|e es IH]; intros w.
  - exists []. cbn. rewrite app_nil_r. auto.
  - destruct (ingest_appends e w) as (r1 & Hdb1 & Hu1 & Hf1).
    rewrite for_of_cons.
    destruct (ingest e w) as [[[]| |] w1] eqn:E; cbn [snd] in *.
    + destruct (IH w1) as (r2 & Hdb2 & Hu2 & Hf2).
      exists (r1 ++ r2). rewrite Hdb2, Hdb1, Hu2, Hu1, app_assoc.
      split; [reflexivity|]. split; [reflexivity|].
      apply Forall_app; split.
      * eapply Forall_impl; [|exact Hf1]. cbn. intros r [Hr Hv]. exists e. auto.
      * eapply Forall_impl; [|exact Hf2]. cbn. intros r (e' & Hin & Hr). exists e'. auto.
    + exists r1. repeat split; auto.
      eapply Forall_impl; [|exact Hf1]. cbn. intros r [Hr Hv]. exists e. auto.
    + exists r1. repeat split; auto.
      eapply Forall_impl; [|exact Hf1]. cbn. intros r [Hr Hv]. exists e. auto.
Qed.

(** A batch of accepted events is appended whole, in order, under the
    next identifiers of the generator. *)
Lemma for_of_ingest_accepts (es : list value) (w : World) :
  Forall (fun e => invalid_event e = Normal false) es ->
  for_of es ingest w =
  (Normal tt,
   mkWorld (db w ++ records_from (uuids w) (drawn w) es) (uuids w)
           (List.length es + drawn w)).
Proof.
  intros H. revert w. induction H as [|e es He Hes IH]; intros w.
  - cbn. rewrite app_nil_r. destruct w; reflexivity.
  - rewrite for_of_cons, (ingest_accepts e w He).
    rewrite IH. cbn. rewrite <- app_assoc. cbn.
    rewrite Nat.add_succ_r. reflexivity.
Qed.

Lemma log_consumption_batch (es : list value) (w : World) :
  Http.log_consumption (batch es) w =
  match for_of es ingest w with
  | (Normal _, w') => (Normal (mkSaved (List.length es)), w')
  | (Throw err, w') => (Throw err, w')
  | (Unmodelled, w') => (Unmodelled, w')
  end.
Proof.
  unfold Http.log_consumption, bind, lift, ret. cbn.
  destruct (for_of es ingest w) as [[]]; reflexivity.
Qed.

(** The events in front of the first invalid one are stored, then the
    call throws. *)
Lemma log_consumption_stops_at_invalid (valid : list value) (e : value)
      (rest : list value) (w : World) :
  Forall (fun e => invalid_event e = Normal false) valid ->
  invalid_event e = Normal true ->
  Http.log_consumption (batch (valid ++ e :: rest)) w =
  (Throw (Error "Invalid event"),
   mkWorld (db w ++ records_from (uuids w) (drawn w) valid) (uuids w)
           (List.length valid + drawn w)).
Proof.
  intros Hvalid He. rewrite log_consumption_batch.
  assert (H : for_of (valid ++ e :: rest) ingest w =
              (Throw (Error "Invalid event"),
               mkWorld (db w ++ records_from (uuids w) (drawn w) valid) (uuids w)
                       (List.length valid + drawn w))).
  { revert w. induction Hvalid as [|v valid Hv Hvs IH]; intros w.
    - cbn [app]. rewrite for_of_cons, (ingest_rejects e w He).
      cbn. rewrite app_nil_r. destruct w; reflexivity.
    - cbn [app]. rewrite for_of_cons, (ingest_accepts v w Hv), IH.
      cbn. rewrite <- app_assoc, Nat.add_succ_r. reflexivity. }
  rewrite H. reflexivity.
Qed.

(** A batch of events (none of them [null]) with an invalid one among
    them fails with "Invalid event". *)
Lemma log_consumption_invalid_batch_throws (es : list value) (w : World) :
  Forall (fun e => nullish e = false) es ->
  Exists (fun e => invalid_event e = Normal true) es ->
  fst (Http.log_consumption (batch es) w) = Throw (Error "Invalid event").
Proof.
  intros Hes Hex. rewrite log_consumption_batch.
  assert (H : fst (for_of es ingest w) = Throw (Error "Invalid event")).
  { revert w. induction Hes as [|e es He Hes IH]; intros w; [inversion Hex|].
    rewrite for_of_cons.
    pose proof (invalid_event_fields e He) as Hb.
    destruct (negb (truthy (field e "timestamp")) || _) eqn:Eb in Hb.
    - rewrite (ingest_rejects e w Hb). reflexivity.
    - rewrite (ingest_accepts e w Hb). apply IH.
      inversion Hex as [? ? Hhead|? ? Htail]; subst; [|exact Htail].
      rewrite Hb in Hhead. discriminate Hhead. }
  destruct (for_of es ingest w) as [[]]; cbn in *; try discriminate.
  injection H as ->. reflexivity.
Qed.

(** C1: in the in-memory binding a batch [[apple; no_unit]] fails with
    "Invalid event" and yet leaves the record made from [apple] in the
    store: the store is not what it was before the call. *)
Theorem log_consumption_keeps_valid_prefix (w : World) :
  Http.log_consumption (batch [Sample.apple; Sample.no_unit]) w =
  (Throw (Error "Invalid event"),
   mkWorld (db w ++ [record_of (VStr (uuids w (drawn w))) Sample.apple])
           (uuids w) (S (drawn w)))
  /\ db (snd (Http.log_consumption (batch [Sample.apple; Sample.no_unit]) w))
     <> db w.
Proof.
  assert (H : Http.log_consumption (batch [Sample.apple; Sample.no_unit]) w =
              (Throw (Error "Invalid event"),
               mkWorld (db w ++ [record_of (VStr (uuids w (drawn w))) Sample.apple])
                       (uuids w) (S (drawn w)))).
  { apply (log_consumption_stops_at_invalid [Sample.apple] Sample.no_unit [] w).
    - constructor; [reflexivity|constructor].
    - reflexivity. }
  split; [exact H|]. rewrite H. cbn [snd db]. intros Heq.
  apply (f_equal (@List.length _)) in Heq. rewrite length_app in Heq. cbn in Heq. lia.
Qed.

(** *** The relational binding: the transaction around the loop *)

Section PgTransaction.

Variable Table : Type.
Variable statement : list Pg.param -> Table -> completion Table.

Lemma pg_query_sql_in_transaction (args : list Pg.param) (w : Pg.World Table) :
  Pg.pending w <> None ->
  Pg.committed (snd (Pg.query_sql Table statement args w)) = Pg.committed w /\
  Pg.pending (snd (Pg.query_sql Table statement args w)) <> None.
Proof.
  intros Hp. unfold Pg.query_sql.
  destruct (Pg.pending w) as [t|] eqn:E; [|contradiction].
  destruct (statement args t); cbn; rewrite ?E; split; congruence.
Qed.

Lemma pg_ingest_in_transaction (e : value) (w : Pg.World Table) :
  Pg.pending w <> None ->
  Pg.committed (snd (Pg.ingest Table statement e w)) = Pg.committed w /\
  Pg.pending (snd (Pg.ingest Table statement e w)) <> None.
Proof.
  intros Hp. unfold Pg.ingest, Pg.bind at 1, Pg.lift at 1.
  destruct (invalid_event e) as [[|]| |] eqn:E; cbn; auto.
  pose proof (invalid_event_not_nullish e false E) as Hn.
  unfold Pg.bind, Pg.lift. rewrite !(get_field e) by exact Hn.
  destruct (truthy (field e "id")).
  - cbn. apply pg_query_sql_in_transaction. exact Hp.
  - cbn.
    match goal with
    | |- context [Pg.query_sql _ _ ?a ?w'] =>
        destruct (pg_query_sql_in_transaction a w') as [Hc Hq]; [exact Hp|]
    end.
    split; [rewrite Hc; reflexivity|exact Hq].
Qed.

Lemma pg_for_of_cons {A} (x : A) (xs : list A) (body : A -> Pg.M Table unit)
      (w : Pg.World Table) :
  Pg.for_of Table (x :: xs) body w =
  match body x w with
  | (Normal _, w') => Pg.for_of Table xs body w'
  | (Throw err, w') => (Throw err, w')
  | (Unmodelled, w') => (Unmodelled, w')
  end.
Proof.
  reflexivity.
Qed.

Lemma pg_for_of_in_transaction (es : list value) (w : Pg.World Table) :
  Pg.pending w <> None ->
  Pg.committed (snd (Pg.for_of Table es (Pg.ingest Table statement) w))
  = Pg.committed w /\
  Pg.pending (snd (Pg.for_of Table es (Pg.ingest Table statement) w))
  <> None.
Proof.
  revert w. induction es as [|e es IH]; intros w Hp; [cbn; auto|].
  destruct (pg_ingest_in_transaction e w Hp) as [Hc Hq].
  rewrite pg_for_of_cons.
  destruct (Pg.ingest Table statement e w) as [[[]| |] w1]; cbn [snd] in *; auto.
  destruct (IH w1 Hq) as [Hc' Hq']. rewrite Hc', Hc. auto.
Qed.

(** A loop that meets an invalid event does not end normally. *)
Lemma pg_for_of_invalid (es : list value) (e : value) (w : Pg.World Table) :
  In e es -> invalid_event e = Normal true ->
  forall u w', Pg.for_of Table es (Pg.ingest Table statement) w <> (Normal u, w').
Proof.
  revert w. induction es as [|x es IH]; intros w Hin He u w'; [contradiction|].
  rewrite pg_for_of_cons.
  destruct (Pg.ingest Table statement x w) as [[[]| |] w1] eqn:Ex; try discriminate.
  destruct Hin as [->|Hin]; [|apply IH; assumption].
  unfold Pg.ingest, Pg.bind, Pg.lift in Ex. rewrite He in Ex. discriminate Ex.
Qed.

(** Whatever [log_consumption] throws, the committed table is the one
    from before the call and no transaction stays open. *)
Lemma pg_log_consumption_rolls_back (input : value) (w w' : Pg.World Table) (err : exn) :
  Pg.log_consumption statement input w = (Throw err, w') ->
  Pg.committed w' = Pg.committed w /\ Pg.pending w' = None.
Proof.
  unfold Pg.log_consumption, Pg.bind at 1, Pg.lift.
  destruct (get_opt_never_throws input "events") as [x ->].
  destruct (Nat.eqb _ 0); [discriminate|].
  unfold Pg.try_catch, Pg.bind at 1, Pg.query_BEGIN.
  set (es := if Array_isArray x then elements x else []).
  set (w0 := Pg.mkWorld (Pg.committed w) (Some (Pg.committed w)) (Pg.uuids w) (Pg.drawn w)).
  destruct (pg_for_of_in_transaction es w0) as [Hc Hq]; [cbn; discriminate|].
  unfold Pg.bind at 1.
  destruct (Pg.for_of Table es (Pg.ingest Table statement) w0) as [[[]| |] w1];
    cbn [snd Pg.committed w0] in Hc, Hq.
  - unfold Pg.bind, Pg.query_COMMIT, Pg.ret.
    destruct (Pg.pending w1); discriminate.
  - unfold Pg.bind, Pg.query_ROLLBACK, Pg.throw. intros H. inversion H; subst.
    cbn. auto.
  - discriminate.
Qed.

(** The sibling of C1: a batch with an invalid event never commits and,
    when it throws, leaves the committed table untouched. *)
Lemma pg_log_consumption_atomic (es : list value) (e : value) (w : Pg.World Table) :
  In e es -> invalid_event e = Normal true ->
  (forall r w', Pg.log_consumption statement (batch es) w <> (Normal r, w')) /\
  (forall err w', Pg.log_consumption statement (batch es) w = (Throw err, w') ->
                  Pg.committed w' = Pg.committed w /\ Pg.pending w' = None).
Proof.
  intros Hin He. split.
  - intros r w'. unfold Pg.log_consumption, Pg.bind at 1, Pg.lift.
    change (get_opt (batch es) "events") with (Normal (VArr es)).
    cbn [Array_isArray elements].
    destruct es as [|x es']; [contradiction|]. cbn [List.length Nat.eqb].
    unfold Pg.try_catch, Pg.bind at 1, Pg.query_BEGIN. unfold Pg.bind at 1.
    set (w0 := Pg.mkWorld (Pg.committed w) (Some (Pg.committed w)) (Pg.uuids w) (Pg.drawn w)).
    pose proof (pg_for_of_invalid (x :: es') e w0 Hin He) as Hnot.
    destruct (Pg.for_of Table (x :: es') (Pg.ingest Table statement) w0)
      as [[[]| |] w1].
    + exfalso. eapply Hnot. reflexivity.
    + unfold Pg.bind, Pg.query_ROLLBACK, Pg.throw. discriminate.
    + discriminate.
  - intros err w'. apply pg_log_consumption_rolls_back.
Qed.

End PgTransaction.

(** C2: in the in-memory binding the identifier an event names is not
    used and nothing is ever replaced.  After [apple] is stored under the
    generator's first identifier, an event submitted under that same
    identifier is appended under a new one while the first record stays as
    it was; submitting it once more appends a third record. *)
Theorem log_consumption_never_replaces :
  let w1 := snd (Http.log_consumption (batch [Sample.apple]) Sample.fresh) in
  let again := Sample.pear_under (Sample.uuids 0) in
  let w2 := snd (Http.log_consumption (batch [again]) w1) in
  let w3 := snd (Http.log_consumption (batch [again]) w2) in
  map ev_id (db w1) = [VStr (Sample.uuids 0)] /\
  map (fun r => (ev_id r, ev_item r)) (db w2)
  = [(VStr (Sample.uuids 0), VStr "apple"); (VStr (Sample.uuids 1), VStr "pear")] /\
  map (fun r => (ev_id r, ev_item r)) (db w3)
  = [(VStr (Sample.uuids 0), VStr "apple"); (VStr (Sample.uuids 1), VStr "pear");
     (VStr (Sample.uuids 2), VStr "pear")].
Proof.
  cbv zeta. repeat split; vm_compute; reflexivity.
Qed.

(** *** The check of line 22 against the Validator *)

Lemma nonempty_string_truthy (v : value) :
  nonempty_string v = true -> truthy v = true.
Proof.
  destruct v; cbn; intros H; try discriminate H; exact H.
Qed.

Lemma in_unit_enum_truthy (v : value) :
  in_unit_enum v = true -> truthy v = true.
Proof.
  destruct v as [| | | |s| |]; cbn; intros H; try discriminate H.
  destruct s; [discriminate H|reflexivity].
Qed.

Lemma absent_or_empty_falsy (v : value) :
  absent_or_empty v = true -> truthy v = false.
Proof.
  destruct v; cbn; intros H; try discriminate H; try reflexivity.
  rewrite H. reflexivity.
Qed.

Lemma validator_any_number_not_nullish (e : value) :
  validator_any_number e = true -> nullish e = false.
Proof.
  destruct e; cbn; intros H; try discriminate H; reflexivity.
Qed.

Lemma validator_any_number_accepted (e : value) :
  validator_any_number e = true -> invalid_event e = Normal false.
Proof.
  intros H. rewrite invalid_event_fields by (apply validator_any_number_not_nullish; exact H).
  unfold validator_any_number in H.
  apply andb_prop in H as [H Hu]. apply andb_prop in H as [H Ha].
  apply andb_prop in H as [Ht Hi].
  rewrite (nonempty_string_truthy _ Ht), (nonempty_string_truthy _ Hi), Ha,
    (in_unit_enum_truthy _ Hu). reflexivity.
Qed.


Lemma lacks_required_rejected (e : value) :
  nullish e = false -> lacks_required e = true -> invalid_event e = Normal true.
Proof.
  intros Hn H. rewrite invalid_event_fields by exact Hn. f_equal.
  unfold lacks_required in H.
  apply orb_prop in H as [H|Hu].
  - apply orb_prop in H as [H|Ha].
    + apply orb_prop in H as [Ht|Hi].
      * rewrite (absent_or_empty_falsy _ Ht). reflexivity.
      * rewrite (absent_or_empty_falsy _ Hi). cbn. apply orb_true_r.
    + rewrite Ha. cbn. rewrite !orb_true_r. reflexivity.
  - rewrite (absent_or_empty_falsy _ Hu). cbn. rewrite !orb_true_r. reflexivity.
Qed.

(** C4, as stated, fails in both bindings.  In-memory: an event whose
    amount is infinite does not pass check 3 of the Validator, and
    [log_consumption] accepts and stores it.  Tool-protocol: [apple]
    passes the four checks and is refused (the schema also requires
    [source]), and an event with an empty timestamp and an empty item fails
    checks 1 and 2 and is stored. *)
Lemma validator_finite_counterexample :
  (validator Sample.infinite_amount = false /\
   Http.log_consumption (batch [Sample.infinite_amount]) Sample.fresh
   = (Normal (mkSaved 1),
      mkWorld [record_of (VStr (Sample.uuids 0)) Sample.infinite_amount] Sample.uuids 1))
  /\
  (validator Sample.apple = true /\
   Mcp.log_consumption (batch [Sample.apple]) VUndefined Fixture.started
   = (Throw (Error "Invalid event"), Fixture.started))
  /\
  (validator Fixture.undated = false /\
   fst (Mcp.log_consumption (batch [Fixture.undated]) VUndefined Fixture.started)
   = Normal (mkSaved 1) /\
   List.length (Mcp.db (snd (Mcp.log_consumption (batch [Fixture.undated]) VUndefined
                                                 Fixture.started))) = 1).
Proof.
  repeat split; reflexivity.
Qed.

(** The unit is only checked for presence: "kg" is stored. *)
Lemma log_consumption_accepts_unknown_unit :
  in_unit_enum (field Sample.kilogram "unit") = false /\
  Http.log_consumption (batch [Sample.kilogram]) Sample.fresh
  = (Normal (mkSaved 1),
     mkWorld [record_of (VStr (Sample.uuids 0)) Sample.kilogram] Sample.uuids 1).
Proof.
  split; reflexivity.
Qed.

(** ** Queries *)

Lemma args_of_not_nullish (input : value) : nullish (args_of input) = false.
Proof.
  unfold args_of, or_else.
  destruct input; cbn; try reflexivity;
    match goal with |- context [if ?c then _ else _] => destruct c end; reflexivity.
Qed.

(** [list_consumption] is the filter of [db] by [keeps], the three
    arguments read off the request; the world stays as it is. *)
Lemma list_consumption_filter (input : value) (w : World) :
  Http.list_consumption input w =
  (bindC (filterC (keeps (field (args_of input) "user_id")
                         (field (args_of input) "from")
                         (field (args_of input) "to")) (db w))
         (fun evs => Normal (mkListing evs)),
   w).
Proof.
  unfold Http.list_consumption, bind, lift. fold (args_of input).
  rewrite !(get_field (args_of input)) by apply args_of_not_nullish.
  reflexivity.
Qed.

Lemma filterC_total {A} (p : A -> completion bool) (q : A -> bool) (xs : list A) :
  Forall (fun x => p x = Normal (q x)) xs ->
  filterC p xs = Normal (filter q xs).
Proof.
  induction 1 as [|x xs Hx Hxs IH]; [reflexivity|].
  cbn. rewrite Hx, IH. cbn. destruct (q x); reflexivity.
Qed.

Lemma ltb_is_not_leb (a b : string) : String.ltb a b = negb (String.leb b a).
Proof.
  unfold String.ltb, String.leb. rewrite (String.compare_antisym b a).
  destruct (String.compare a b); reflexivity.
Qed.

Lemma iso_string_timestamp (r : EventRecord) :
  has_string_timestamp r -> iso (ev_timestamp r) = Normal (VStr (date_of r)).
Proof.
  intros [s Hs]. unfold iso, date_of, timestamp_string, or_else. rewrite Hs.
  destruct s; reflexivity.
Qed.

Lemma keeps_on_typed (user_id from to : value) (r : EventRecord) :
  has_string_timestamp r -> string_or_absent from -> string_or_absent to ->
  keeps user_id from to r = Normal (keeps_typed user_id from to r).
Proof.
  intros Hr Hf Ht. unfold keeps, keeps_typed.
  destruct (truthy user_id && negb (strict_eq (ev_user_id r) user_id)) eqn:Eu.
  - apply andb_prop in Eu as [-> Eu]. apply negb_true_iff in Eu. rewrite Eu. reflexivity.
  - assert (Hu : negb (truthy user_id) || strict_eq (ev_user_id r) user_id = true).
    { destruct (truthy user_id); [|reflexivity]. cbn in *.
      apply negb_false_iff in Eu. exact Eu. }
    rewrite Hu, (iso_string_timestamp r Hr). cbn [bindC andb].
    destruct Hf as [->|[->|[sf ->]]]; destruct Ht as [->|[->|[st ->]]]; cbn;
      rewrite ?ltb_is_not_leb;
      repeat match goal with
             | |- context [negb (?s =? "")] => destruct (s =? ""); cbn
             | |- context [String.leb ?a ?b] => destruct (String.leb a b); cbn
             end; reflexivity.
Qed.

Lemma strict_eq_string (v : value) (s : string) :
  strict_eq v (VStr s) = true <-> v = VStr s.
Proof.
  destruct v; cbn; split; intros H; try discriminate H.
  - apply String.eqb_eq in H. subst. reflexivity.
  - inversion H. apply String.eqb_refl.
Qed.

Lemma owner_clause (user_id : value) (r : EventRecord) :
  string_or_absent user_id ->
  negb (truthy user_id) || strict_eq (ev_user_id r) user_id = true
  <-> absent_or_empty user_id = true \/ ev_user_id r = user_id.
Proof.
  intros [->|[->|[s ->]]]; cbn; [tauto|tauto|].
  destruct (s =? "") eqn:E; cbn; [tauto|].
  rewrite strict_eq_string. split; [auto|]. intros [H|H]; [discriminate H|exact H].
Qed.

Lemma bound_clause (bound : value) (within : string -> bool) :
  string_or_absent bound ->
  negb (truthy bound) || match bound with VStr s => within s | _ => true end = true
  <-> absent_or_empty bound = true \/ exists s, bound = VStr s /\ within s = true.
Proof.
  intros [->|[->|[s ->]]]; cbn; [tauto|tauto|].
  destruct (s =? "") eqn:E; cbn; [tauto|]. split.
  - intros H. right. exists s. auto.
  - intros [H|(s' & Hs & H)]; [discriminate H|]. inversion Hs. subst. exact H.
Qed.

Lemma keeps_typed_matches (user_id from to : value) (r : EventRecord) :
  string_or_absent user_id -> string_or_absent from -> string_or_absent to ->
  keeps_typed user_id from to r = true <-> matches user_id from to r.
Proof.
  intros Hu Hf Ht. unfold keeps_typed, matches.
  rewrite !andb_true_iff, (owner_clause user_id r Hu).
  rewrite (bound_clause from (fun s => String.leb s (date_of r)) Hf).
  rewrite (bound_clause to (fun s => String.leb (date_of r) s) Ht).
  tauto.
Qed.

(** C6, as stated, fails: with [{user_id: ""}] the record of [apple],
    whose owner is "u1", is listed, although [user_id] is there and is
    not the record's owner. *)
Lemma list_consumption_empty_owner_counterexample :
  let w := snd (Http.log_consumption (batch [Sample.apple]) Sample.fresh) in
  let r := record_of (VStr (Sample.uuids 0)) Sample.apple in
  Http.list_consumption (VObj [("user_id", VStr "")]) w = (Normal (mkListing [r]), w)
  /\ ev_user_id r = VStr "u1"
  /\ ~ matches_as_stated (VStr "") VUndefined VUndefined r.
Proof.
  cbv zeta. split; [reflexivity|]. split; [reflexivity|].
  intros [[[H|H]|H] _]; discriminate H.
Qed.

(** C6, amended: on a store whose timestamps are strings, and for
    arguments that are strings when present, [list_consumption] returns
    the stored records for which: [user_id] is absent or empty or equals
    the record's [user_id]; [from] is absent or empty or at most the first
    10 characters of the timestamp; [to] is absent or empty or at least
    those 10 characters (in the order of the strings). *)
Theorem list_consumption_matches (input : value) (w : World) :
  Forall has_string_timestamp (db w) ->
  string_or_absent (field (args_of input) "user_id") ->
  string_or_absent (field (args_of input) "from") ->
  string_or_absent (field (args_of input) "to") ->
  exists evs,
    Http.list_consumption input w = (Normal (mkListing evs), w) /\
    forall r, In r evs <->
              In r (db w) /\
              matches (field (args_of input) "user_id") (field (args_of input) "from")
                      (field (args_of input) "to") r.
Proof.
  intros Hdb Hu Hf Ht.
  set (u := field (args_of input) "user_id") in *.
  set (f := field (args_of input) "from") in *.
  set (t := field (args_of input) "to") in *.
  exists (filter (keeps_typed u f t) (db w)). split.
  - rewrite list_consumption_filter. fold u f t.
    rewrite (filterC_total _ (keeps_typed u f t)); [reflexivity|].
    eapply Forall_impl; [|exact Hdb]. cbn. intros r Hr.
    apply keeps_on_typed; assumption.
  - intros r. rewrite filter_In, (keeps_typed_matches u f t r Hu Hf Ht). tauto.
Qed.

Lemma list_consumption_matches_witness :
  let w := snd (Http.log_consumption (batch [Sample.apple; Sample.soup;
                                                    Sample.pear_under "e1"])
                                     Sample.fresh) in
  let input := VObj [("user_id", VStr "u1"); ("from", VStr "2024-01-10");
                     ("to", VStr "2024-01-15")] in
  exists evs,
    Http.list_consumption input w = (Normal (mkListing evs), w) /\
    forall r, In r evs <->
              In r (db w) /\ matches (VStr "u1") (VStr "2024-01-10") (VStr "2024-01-15") r.
Proof.
  cbv zeta.
  apply (list_consumption_matches
           (VObj [("user_id", VStr "u1"); ("from", VStr "2024-01-10");
                  ("to", VStr "2024-01-15")])
           (snd (Http.log_consumption (batch [Sample.apple; Sample.soup;
                                                     Sample.pear_under "e1"])
                                      Sample.fresh))).
  - repeat constructor; eexists; reflexivity.
  - right; right; eexists; reflexivity.
  - right; right; eexists; reflexivity.
  - right; right; eexists; reflexivity.
Defined.

(** The specification's example: of events on 2024-01-01, 2024-01-15 and
    2024-02-01, the listing from 2024-01-10 to 2024-01-31 has the second
    only; a bound that is the date itself keeps an event late that day. *)
Example date_filtering_example :
  let w := snd (Http.log_consumption
                  (batch [Sample.meal_at "2024-01-01T07:00:00Z";
                          Sample.meal_at "2024-01-15T23:59:59Z";
                          Sample.meal_at "2024-02-01T07:00:00Z"])
                  Sample.fresh) in
  fst (Http.list_consumption
         (VObj [("from", VStr "2024-01-10"); ("to", VStr "2024-01-31")]) w)
  = Normal (mkListing [record_of (VStr (Sample.uuids 1))
                                 (Sample.meal_at "2024-01-15T23:59:59Z")])
  /\
  fst (Http.list_consumption
         (VObj [("from", VStr "2024-01-15"); ("to", VStr "2024-01-15")]) w)
  = Normal (mkListing [record_of (VStr (Sample.uuids 1))
                                 (Sample.meal_at "2024-01-15T23:59:59Z")]).
Proof.
  cbv zeta. split; reflexivity.
Qed.

Lemma nullish_string_or_absent (v : value) : nullish v = true -> string_or_absent v.
Proof.
  destruct v; cbn; intros H; try discriminate H; [left|right; left]; reflexivity.
Qed.

Lemma nullish_falsy (v : value) : nullish v = true -> truthy v = false.
Proof.
  destruct v; cbn; intros H; try discriminate H; reflexivity.
Qed.

Lemma filter_all {A} (xs : list A) : filter (fun _ => true) xs = xs.
Proof.
  induction xs as [|x xs IH]; [reflexivity|]. cbn. rewrite IH. reflexivity.
Qed.


(** C5: in the in-memory binding the listing is in the order of
    insertion.  [soup] (12:45) logged before [apple] (08:30) is listed
    before it: the listing is not ascending by timestamp. *)
Theorem list_consumption_keeps_insertion_order :
  let w := snd (Http.log_consumption (batch [Sample.soup; Sample.apple])
                                     Sample.fresh) in
  exists evs,
    Http.list_consumption (VObj []) w = (Normal (mkListing evs), w) /\
    map timestamp_string evs = ["2024-01-15T12:45:00Z"; "2024-01-15T08:30:00Z"] /\
    ordered_by_timestamp evs = false.
Proof.
  cbv zeta. eexists. split; [reflexivity|]. split; reflexivity.
Qed.

(** *** Ingestion followed by a listing *)







(** ** Aggregation *)

(** [summarize_intake] filters [db] as [list_consumption] does for the
    same request, then reduces; the world stays as it is. *)
Lemma summarize_intake_filter (input : value) (w : World) :
  Http.summarize_intake input w =
  (bindC (filterC (keeps (field (args_of input) "user_id")
                         (field (args_of input) "from")
                         (field (args_of input) "to")) (db w))
         (fun evs =>
            bindC (reduceC (fun s e => add s (or_else (ev_calories e) (VNum 0))) evs (VNum 0))
                  (fun total => Normal (mkSummary total (List.length evs)))),
   w).
Proof.
  unfold Http.summarize_intake. fold (args_of input). unfold bind at 1 2 3, lift at 1 2 3.
  rewrite !(get_field (args_of input)) by apply args_of_not_nullish.
  unfold bind at 1. rewrite list_consumption_filter.
  change (args_of (VObj [("user_id", field (args_of input) "user_id");
                         ("from", field (args_of input) "from");
                         ("to", field (args_of input) "to")]))
    with (VObj [("user_id", field (args_of input) "user_id");
                ("from", field (args_of input) "from");
                ("to", field (args_of input) "to")]).
  change (field (VObj [("user_id", field (args_of input) "user_id");
                       ("from", field (args_of input) "from");
                       ("to", field (args_of input) "to")]) "user_id")
    with (field (args_of input) "user_id").
  change (field (VObj [("user_id", field (args_of input) "user_id");
                       ("from", field (args_of input) "from");
                       ("to", field (args_of input) "to")]) "from")
    with (field (args_of input) "from").
  change (field (VObj [("user_id", field (args_of input) "user_id");
                       ("from", field (args_of input) "from");
                       ("to", field (args_of input) "to")]) "to")
    with (field (args_of input) "to").
  destruct (filterC _ (db w)) as [evs| |]; cbn; try reflexivity.
  unfold bind, lift, ret.
  destruct (reduceC _ evs (VNum 0)); reflexivity.
Qed.

Lemma filterC_keeps_property {A} (P : A -> Prop) (p : A -> completion bool)
      (xs ys : list A) :
  Forall P xs -> filterC p xs = Normal ys -> Forall P ys.
Proof.
  intros H. revert ys. induction H as [|x xs Hx Hxs IH]; intros ys; cbn.
  - intros E. inversion E. constructor.
  - destruct (p x) as [keep| |]; cbn; try discriminate.
    destruct (filterC p xs) as [kept| |]; cbn; try discriminate.
    intros E. inversion E. destruct keep; [constructor|]; auto.
Qed.

(** *** Sums of binary64 numbers up to the sign of zero *)

Lemma Prim2SF_injective (x y : float) : Prim2SF x = Prim2SF y -> x = y.
Proof.
  intros H. rewrite <- (SF2Prim_Prim2SF x), <- (SF2Prim_Prim2SF y), H. reflexivity.
Qed.

Lemma float_zero (x : float) :
  PrimFloat.eqb x 0 = true <-> exists s, Prim2SF x = S754_zero s.
Proof.
  rewrite eqb_spec. change (Prim2SF 0) with (S754_zero false).
  destruct (Prim2SF x) as [s|s| |s m e]; cbn; split.
  - intros _. eexists. reflexivity.
  - reflexivity.
  - destruct s; discriminate.
  - intros [s' H]. discriminate H.
  - discriminate.
  - intros [s' H]. discriminate H.
  - destruct s; discriminate.
  - intros [s' H]. discriminate H.
Qed.

Lemma zero_add_zero (x y : float) :
  PrimFloat.eqb x 0 = true -> PrimFloat.eqb y 0 = true ->
  PrimFloat.eqb (x + y) 0 = true.
Proof.
  intros Hx Hy. apply float_zero in Hx as [sx Hx]. apply float_zero in Hy as [sy Hy].
  apply float_zero. rewrite add_spec, Hx, Hy.
  destruct sx, sy; eexists; reflexivity.
Qed.

Lemma zeros_add (a b c : float) :
  PrimFloat.eqb a 0 = true -> PrimFloat.eqb b 0 = true ->
  same_number (a + c) (b + c).
Proof.
  intros Ha Hb.
  destruct (PrimFloat.eqb c 0) eqn:Hc.
  - right. split; apply zero_add_zero; assumption.
  - left. apply Prim2SF_injective. rewrite !add_spec.
    apply float_zero in Ha as [sa Ha]. apply float_zero in Hb as [sb Hb].
    rewrite Ha, Hb.
    destruct (Prim2SF c) as [s|s| |s m e] eqn:E; try reflexivity.
    exfalso. assert (H : PrimFloat.eqb c 0 = true) by (apply float_zero; eexists; exact E).
    rewrite H in Hc. discriminate Hc.
Qed.

Lemma add_zeros (s c d : float) :
  PrimFloat.eqb c 0 = true -> PrimFloat.eqb d 0 = true ->
  same_number (s + c) (s + d).
Proof.
  intros Hc Hd.
  destruct (PrimFloat.eqb s 0) eqn:Hs.
  - right. split; apply zero_add_zero; assumption.
  - left. apply Prim2SF_injective. rewrite !add_spec.
    apply float_zero in Hc as [sc Hc]. apply float_zero in Hd as [sd Hd].
    rewrite Hc, Hd.
    destruct (Prim2SF s) as [z|z| |z m e] eqn:E; try reflexivity.
    exfalso. assert (H : PrimFloat.eqb s 0 = true) by (apply float_zero; eexists; exact E).
    rewrite H in Hs. discriminate Hs.
Qed.

Lemma same_number_add (a b c d : float) :
  same_number a b -> same_number c d -> same_number (a + c) (b + d).
Proof.
  intros [->|[Ha Hb]] [->|[Hc Hd]].
  - left. reflexivity.
  - apply add_zeros; assumption.
  - apply zeros_add; assumption.
  - right. split; apply zero_add_zero; assumption.
Qed.

(** *** The total *)

(** What line 55 adds for a record, against its calories. *)
Lemma summand_calories (r : EventRecord) :
  calories_number r ->
  exists c, or_else (ev_calories r) (VNum 0) = VNum c /\
            same_number c (calories_or_zero r).
Proof.
  unfold calories_or_zero, or_else. intros [Hn|(x & Hx & Hnan)].
  - exists 0%float. destruct (ev_calories r); try discriminate Hn;
      (split; [reflexivity|left; reflexivity]).
  - rewrite Hx. cbn [truthy]. rewrite Hnan, orb_false_r.
    destruct (PrimFloat.eqb x 0) eqn:E; cbn [negb].
    + exists 0%float. split; [reflexivity|]. right. split; [reflexivity|exact E].
    + exists x. split; [reflexivity|left; reflexivity].
Qed.

Lemma reduce_calories (evs : list EventRecord) (a b : float) :
  Forall calories_number evs -> same_number a b ->
  exists total,
    reduceC (fun s e => add s (or_else (ev_calories e) (VNum 0))) evs (VNum a)
    = Normal (VNum total) /\
    same_number total (fold_left (fun s r => (s + calories_or_zero r)%float) evs b).
Proof.
  intros H. revert a b. induction H as [|r evs Hr Hevs IH]; intros a b Hab.
  - exists a. split; [reflexivity|exact Hab].
  - cbn [reduceC fold_left].
    destruct (summand_calories r Hr) as (c & -> & Hc). cbn [add bindC].
    apply IH. apply same_number_add; assumption.
Qed.

Lemma summand_calories_exact (r : EventRecord) :
  calories_number r -> calories_not_negative_zero r ->
  or_else (ev_calories r) (VNum 0) = VNum (calories_or_zero r).
Proof.
  unfold calories_or_zero, or_else, calories_not_negative_zero.
  intros [Hn|(x & Hx & Hnan)] Hz.
  - destruct (ev_calories r); try discriminate Hn; reflexivity.
  - rewrite Hx in *. cbn [truthy]. rewrite Hnan, orb_false_r.
    destruct (PrimFloat.eqb x 0) eqn:E; cbn [negb]; [|reflexivity].
    apply float_zero in E as [[|] E].
    + exfalso. apply Hz. f_equal. apply Prim2SF_injective. rewrite E. reflexivity.
    + f_equal. apply Prim2SF_injective. rewrite E. reflexivity.
Qed.

Lemma reduce_calories_exact (evs : list EventRecord) (s : float) :
  Forall calories_number evs -> Forall calories_not_negative_zero evs ->
  reduceC (fun s e => add s (or_else (ev_calories e) (VNum 0))) evs (VNum s)
  = Normal (VNum (fold_left (fun s r => (s + calories_or_zero r)%float) evs s)).
Proof.
  intros H. revert s. induction H as [|r evs Hr Hevs IH]; intros s Hz; [reflexivity|].
  inversion Hz as [|? ? Hzr Hzs]; subst.
  cbn [reduceC fold_left]. rewrite (summand_calories_exact r Hr Hzr).
  cbn [add bindC]. apply IH. exact Hzs.
Qed.

(** C7, as stated, fails: line 22 lets calories through that are not
    numbers and line 33 stores them.  After an event with calories "100"
    is logged, the total of the one record listed is the string "0100",
    not a number. *)
Lemma summarize_intake_string_calories_counterexample :
  let w := snd (Http.log_consumption (batch [Sample.quoted_calories]) Sample.fresh) in
  fst (Http.log_consumption (batch [Sample.quoted_calories]) Sample.fresh)
  = Normal (mkSaved 1) /\
  Http.list_consumption VUndefined w = (Normal (mkListing (db w)), w) /\
  Http.summarize_intake VUndefined w = (Normal (mkSummary (VStr "0100") 1), w) /\
  VStr "0100" <> VNum (sum_calories (db w)).
Proof.
  cbv zeta. repeat split; try reflexivity. discriminate.
Qed.

(** C7, amended: for every store and every request, when the records
    [list_consumption] returns for the request have calories that are
    absent or numbers other than NaN, [summarize_intake] returns for the
    same request their count and a total that is the same number as the
    sum of their calories taken in order from 0 (an absent value counting
    as 0): the same binary64 value when no calories is -0, and the same up
    to the sign of zero otherwise.  It fails exactly as [list_consumption]
    does. *)
Theorem summarize_intake_sums (input : value) (w : World) :
  (forall evs,
      Http.list_consumption input w = (Normal (mkListing evs), w) ->
      Forall calories_number evs ->
      exists total,
        Http.summarize_intake input w
        = (Normal (mkSummary (VNum total) (List.length evs)), w) /\
        same_number total (sum_calories evs) /\
        (Forall calories_not_negative_zero evs -> total = sum_calories evs)) /\
  (forall err,
      Http.list_consumption input w = (Throw err, w) ->
      Http.summarize_intake input w = (Throw err, w)) /\
  (Http.list_consumption input w = (Unmodelled, w) ->
   Http.summarize_intake input w = (Unmodelled, w)).
Proof.
  rewrite list_consumption_filter, summarize_intake_filter.
  destruct (filterC _ (db w)) as [kept| |] eqn:E; cbn [bindC];
    repeat split; try discriminate; try reflexivity; try (intros err H; inversion H; reflexivity).
  intros evs H Hevs. inversion H; subst evs.
  destruct (reduce_calories kept 0 0 Hevs (or_introl eq_refl)) as (total & Hred & Htotal).
  rewrite Hred. exists total. split; [reflexivity|]. split; [exact Htotal|].
  intros Hz. rewrite (reduce_calories_exact kept 0 Hevs Hz) in Hred.
  injection Hred as <-. reflexivity.
Qed.

(** The specification's example: calories 100, absent and 50 give a
    total of 150 and a count of 3. *)
Lemma summarize_intake_sums_witness :
  let w := snd (Http.log_consumption Sample.three_meals Sample.fresh) in
  Forall calories_number (db w) /\
  exists total,
    Http.summarize_intake (VObj [("user_id", VStr "ann")]) w
    = (Normal (mkSummary (VNum total) 3), w) /\
    same_number total 150 /\
    (Forall calories_not_negative_zero (db w) -> total = 150%float).
Proof.
  cbv zeta.
  assert (H : Forall calories_number
                     (db (snd (Http.log_consumption Sample.three_meals Sample.fresh)))).
  { repeat (constructor;
            [first [left; reflexivity
                   |right; eexists; split; reflexivity]|]).
    constructor. }
  split; [exact H|].
  exact (proj1 (summarize_intake_sums (VObj [("user_id", VStr "ann")])
                  (snd (Http.log_consumption Sample.three_meals Sample.fresh)))
               (db (snd (Http.log_consumption Sample.three_meals Sample.fresh)))
               eq_refl H).
Defined.

(** The same example by computation: the total is 150 itself. *)
Example summarize_intake_three_meals :
  Http.summarize_intake (VObj [("user_id", VStr "ann")])
    (snd (Http.log_consumption Sample.three_meals Sample.fresh))
  = (Normal (mkSummary (VNum 150) 3),
     snd (Http.log_consumption Sample.three_meals Sample.fresh)).
Proof.
  reflexivity.
Qed.

(** ** Owner isolation *)

Lemma filterC_kept {A} (p : A -> completion bool) (xs ys : list A) :
  filterC p xs = Normal ys -> Forall (fun y => p y = Normal true) ys.
Proof.
  revert ys. induction xs as [|x xs IH]; intros ys; cbn.
  - intros E. inversion E. constructor.
  - destruct (p x) as [keep| |] eqn:Ex; cbn; try discriminate.
    destruct (filterC p xs) as [kept| |]; cbn; try discriminate.
    intros E. inversion E. destruct keep; [constructor|]; auto.
Qed.







(** * Further properties of the code *)

Import Shape.

(** ** In-memory binding: what [log_consumption] does to the store *)

Lemma log_consumption_events (input : value) :
  exists es,
    forall w,
      Http.log_consumption input w =
      match for_of es ingest w with
      | (Normal _, w') => (Normal (mkSaved (List.length es)), w')
      | (Throw err, w') => (Throw err, w')
      | (Unmodelled, w') => (Unmodelled, w')
      end.
Proof.
  destruct (get_opt_never_throws input "events") as [x Hx].
  exists (if Array_isArray x then elements x else []). intros w.
  unfold Http.log_consumption, bind, lift, ret. rewrite Hx.
  destruct (for_of _ ingest w) as [[]]; reflexivity.
Qed.

Lemma world_eta (w : World) :
  mkWorld (db w ++ []) (uuids w) (0 + drawn w) = w.
Proof.
  destruct w. cbn. rewrite app_nil_r. reflexivity.
Qed.

(** The loop stores a prefix of the events, under the next identifiers,
    and ends normally only when the prefix is all of them. *)
Lemma for_of_ingest_prefix (es : list value) (w : World) :
  exists accepted rest,
    es = accepted ++ rest /\
    Forall (fun e => invalid_event e = Normal false) accepted /\
    snd (for_of es ingest w)
    = mkWorld (db w ++ records_from (uuids w) (drawn w) accepted) (uuids w)
              (List.length accepted + drawn w) /\
    (forall u, fst (for_of es ingest w) = Normal u -> rest = []).
Proof.
  revert w. induction es as [|e es IH]; intros w.
  - exists [], []. cbn. rewrite world_eta. auto.
  - rewrite for_of_cons.
    destruct (invalid_event e) as [[|]| |] eqn:E.
    + exists [], (e :: es). rewrite (ingest_rejects e w E). cbn [snd fst app records_from List.length].
      rewrite world_eta. repeat split; auto. discriminate.
    + rewrite (ingest_accepts e w E).
      destruct (IH (mkWorld (db w ++ [record_of (VStr (uuids w (drawn w))) e])
                            (uuids w) (S (drawn w))))
        as (accepted & rest & Hes & Hacc & Hw & Hn).
      exists (e :: accepted), rest. cbn [db uuids drawn] in Hw.
      split; [cbn; rewrite Hes; reflexivity|].
      split; [constructor; assumption|].
      split; [|exact Hn].
      rewrite Hw. cbn. rewrite <- app_assoc, Nat.add_succ_r. reflexivity.
    + exists [], (e :: es). unfold ingest, bind, lift. rewrite E.
      cbn [snd fst app records_from List.length].
      rewrite world_eta. repeat split; auto. discriminate.
    + exists [], (e :: es). unfold ingest, bind, lift. rewrite E.
      cbn [snd fst app records_from List.length].
      rewrite world_eta. repeat split; auto. discriminate.
Qed.

Lemma records_from_ids (ids : nat -> string) (es : list value) (k : nat) :
  map ev_id (records_from ids k es)
  = map (fun i => VStr (ids i)) (seq k (List.length es)).
Proof.
  revert k. induction es as [|e es IH]; intros k; [reflexivity|].
  cbn. rewrite IH. reflexivity.
Qed.

Lemma records_from_length (ids : nat -> string) (es : list value) (k : nat) :
  List.length (records_from ids k es) = List.length es.
Proof.
  revert k. induction es as [|e es IH]; intros k; [reflexivity|].
  cbn. rewrite IH. reflexivity.
Qed.

(** X1: whatever the request and whatever the outcome, [log_consumption]
    only appends to [db]: the records already there stay, in place and
    unchanged; the generator is advanced by the number of records added and
    these carry its next identifiers, in order. *)
Theorem log_consumption_only_appends (input : value) (w : World) :
  exists recs,
    db (snd (Http.log_consumption input w)) = db w ++ recs /\
    uuids (snd (Http.log_consumption input w)) = uuids w /\
    drawn (snd (Http.log_consumption input w)) = List.length recs + drawn w /\
    map ev_id recs
    = map (fun i => VStr (uuids w i)) (seq (drawn w) (List.length recs)).
Proof.
  destruct (log_consumption_events input) as [es Hes]. rewrite Hes.
  destruct (for_of_ingest_prefix es w) as (accepted & rest & _ & _ & Hw & _).
  exists (records_from (uuids w) (drawn w) accepted).
  assert (Hsnd : snd (match for_of es ingest w with
                      | (Normal _, w') => (Normal (mkSaved (List.length es)), w')
                      | (Throw err, w') => (Throw err, w')
                      | (Unmodelled, w') => (Unmodelled, w')
                      end) = snd (for_of es ingest w)).
  { destruct (for_of es ingest w) as [[]]; reflexivity. }
  rewrite Hsnd, Hw. cbn [db uuids drawn].
  rewrite records_from_length, records_from_ids. auto.
Qed.

Lemma log_consumption_submitted (input : value) (w : World) :
  Http.log_consumption input w =
  match for_of (submitted input) ingest w with
  | (Normal _, w') => (Normal (mkSaved (List.length (submitted input))), w')
  | (Throw err, w') => (Throw err, w')
  | (Unmodelled, w') => (Unmodelled, w')
  end.
Proof.
  unfold Http.log_consumption, submitted, bind, lift, ret.
  destruct (get_opt_never_throws input "events") as [x ->].
  replace (if Array_isArray x then elements x else [])
    with (match x with VArr es => es | _ => [] end) by (destruct x; reflexivity).
  destruct (for_of _ ingest w) as [[]]; reflexivity.
Qed.

(** X2: when [log_consumption] returns, [saved_count] is the number of the
    events of [input.events], every one of them passed the check of line
    22 and was stored: [db] has grown by their records, in their order,
    under the next identifiers of the generator, hence by exactly
    [saved_count] records. *)
Theorem log_consumption_saved_count (input : value) (w w' : World) (r : Saved) :
  Http.log_consumption input w = (Normal r, w') ->
  saved_count r = List.length (submitted input) /\
  Forall (fun e => invalid_event e = Normal false) (submitted input) /\
  w' = mkWorld (db w ++ records_from (uuids w) (drawn w) (submitted input)) (uuids w)
               (List.length (submitted input) + drawn w) /\
  List.length (db w') = List.length (db w) + saved_count r /\
  drawn w' = drawn w + saved_count r.
Proof.
  rewrite log_consumption_submitted.
  destruct (for_of_ingest_prefix (submitted input) w)
    as (accepted & rest & Hsplit & Hacc & Hw & Hn).
  destruct (for_of (submitted input) ingest w) as [[u| |] w1] eqn:E; try discriminate.
  intros H. injection H as <- <-. cbn [fst snd saved_count] in *.
  rewrite (Hn u eq_refl), app_nil_r in Hsplit. subst accepted.
  split; [reflexivity|]. split; [exact Hacc|]. split; [exact Hw|].
  rewrite Hw. cbn. rewrite length_app, records_from_length. lia.
Qed.

Lemma log_consumption_saved_count_witness :
  saved_count (mkSaved 2) = List.length (submitted (batch [Sample.apple; Sample.soup])) /\
  Forall (fun e => invalid_event e = Normal false)
         (submitted (batch [Sample.apple; Sample.soup])) /\
  snd (Http.log_consumption (batch [Sample.apple; Sample.soup]) Sample.fresh)
  = mkWorld ([] ++ records_from Sample.uuids 0 (submitted (batch [Sample.apple; Sample.soup])))
            Sample.uuids
            (List.length (submitted (batch [Sample.apple; Sample.soup])) + 0) /\
  List.length (db (snd (Http.log_consumption (batch [Sample.apple; Sample.soup])
                                             Sample.fresh)))
  = 0 + 2 /\
  drawn (snd (Http.log_consumption (batch [Sample.apple; Sample.soup]) Sample.fresh))
  = 0 + 2.
Proof.
  exact (log_consumption_saved_count
           (batch [Sample.apple; Sample.soup]) Sample.fresh
           (snd (Http.log_consumption (batch [Sample.apple; Sample.soup]) Sample.fresh))
           (mkSaved 2) eq_refl).
Defined.

(** X3: a batch is processed up to its first event that is [null] or
    fails the check of line 22.  The events before it are stored, those
    after it are not looked at, and the call throws a [TypeError] for
    [null] and "Invalid event" otherwise. *)
Theorem log_consumption_first_failure (accepted : list value) (e : value)
        (rest : list value) (w : World) :
  Forall (fun e => invalid_event e = Normal false) accepted ->
  nullish e = true \/ invalid_event e = Normal true ->
  Http.log_consumption (batch (accepted ++ e :: rest)) w =
  (Throw (if nullish e then TypeError else Error "Invalid event"),
   mkWorld (db w ++ records_from (uuids w) (drawn w) accepted) (uuids w)
           (List.length accepted + drawn w)).
Proof.
  intros Hacc He. rewrite log_consumption_batch.
  assert (H : for_of (accepted ++ e :: rest) ingest w =
              (Throw (if nullish e then TypeError else Error "Invalid event"),
               mkWorld (db w ++ records_from (uuids w) (drawn w) accepted) (uuids w)
                       (List.length accepted + drawn w))).
  { revert w. induction Hacc as [|v accepted Hv Hvs IH]; intros w.
    - cbn [app records_from List.length]. rewrite for_of_cons, world_eta.
      destruct He as [Hnull|Hinv].
      + rewrite (ingest_null e w Hnull), Hnull. reflexivity.
      + rewrite (ingest_rejects e w Hinv), (invalid_event_not_nullish e true Hinv).
        reflexivity.
    - cbn [app]. rewrite for_of_cons, (ingest_accepts v w Hv), IH.
      cbn. rewrite <- app_assoc, Nat.add_succ_r. reflexivity. }
  rewrite H. reflexivity.
Qed.

Lemma log_consumption_first_failure_witness :
  Http.log_consumption (batch ([Sample.apple] ++ VNull :: [Sample.soup])) Sample.fresh
  = (Throw TypeError,
     mkWorld [record_of (VStr (Sample.uuids 0)) Sample.apple] Sample.uuids 1).
Proof.
  apply (log_consumption_first_failure [Sample.apple] VNull [Sample.soup] Sample.fresh).
  - constructor; [reflexivity|constructor].
  - left. reflexivity.
Defined.

(** *** Identifiers *)

Lemma sorted_below_then_seq (ks : list nat) (d n : nat) :
  StronglySorted Nat.lt ks -> Forall (fun k => k < d) ks ->
  StronglySorted Nat.lt (ks ++ seq d n).
Proof.
  intros Hs Hb. induction Hs as [|k ks Hs IH Hk]; cbn.
  - clear Hb. revert d. induction n as [|n IH]; intros d; cbn; constructor.
    + apply IH.
    + apply Forall_forall. intros x Hx. apply in_seq in Hx. unfold Nat.lt. lia.
  - inversion Hb as [|? ? Hkd Hb']; subst. constructor; [apply IH, Hb'|].
    apply Forall_app. split; [exact Hk|].
    apply Forall_forall. intros x Hx. apply in_seq in Hx. unfold Nat.lt. lia.
Qed.

Lemma sorted_no_duplicate (ks : list nat) :
  StronglySorted Nat.lt ks -> NoDup ks.
Proof.
  induction 1 as [|k ks Hs IH Hk]; constructor; [|exact IH].
  intros Hin. rewrite Forall_forall in Hk. specialize (Hk k Hin).
  unfold Nat.lt in Hk. lia.
Qed.

(** X4: as long as the generator never repeats itself, the identifiers in
    [db] stay pairwise distinct, whatever is submitted: they are the
    generator's, in the order it gave them. *)
Theorem log_consumption_keeps_ids_unique (input : value) (w : World) :
  (forall i j, uuids w i = uuids w j -> i = j) ->
  ids_generated w ->
  ids_generated (snd (Http.log_consumption input w)) /\
  NoDup (map ev_id (db (snd (Http.log_consumption input w)))).
Proof.
  intros Hinj (ks & Hks & Hsorted & Hbelow).
  destruct (log_consumption_events input) as [es Hes].
  destruct (for_of_ingest_prefix es w) as (accepted & rest & _ & _ & Hw & _).
  assert (Hsnd : snd (Http.log_consumption input w) = snd (for_of es ingest w)).
  { rewrite Hes. destruct (for_of es ingest w) as [[]]; reflexivity. }
  rewrite Hsnd, Hw. cbn [db uuids drawn].
  set (n := List.length accepted).
  assert (Hmap : map ev_id (db w ++ records_from (uuids w) (drawn w) accepted)
                 = map (fun k => VStr (uuids w k)) (ks ++ seq (drawn w) n)).
  { rewrite !map_app, Hks, records_from_ids. reflexivity. }
  assert (Hsorted' : StronglySorted Nat.lt (ks ++ seq (drawn w) n)).
  { apply sorted_below_then_seq; assumption. }
  split.
  - exists (ks ++ seq (drawn w) n). cbn [db uuids drawn].
    split; [exact Hmap|]. split; [exact Hsorted'|].
    apply Forall_app. split.
    + eapply Forall_impl; [|exact Hbelow]. cbn. intros k Hk. lia.
    + apply Forall_forall. intros x Hx. apply in_seq in Hx. lia.
  - rewrite Hmap. apply Injective_map_NoDup.
    + intros i j Hij. injection Hij as Hij. apply Hinj, Hij.
    + apply sorted_no_duplicate, Hsorted'.
Qed.

Lemma log_consumption_keeps_ids_unique_witness :
  NoDup (map ev_id (db (snd (Http.log_consumption
                               (batch [Sample.apple; Sample.pear_under "e1";
                                       Sample.pear_under "e1"])
                               (mkWorld [] (fun n => String.concat "" (repeat "x" n)) 0))))).
Proof.
  refine (proj2 (log_consumption_keeps_ids_unique
                   (batch [Sample.apple; Sample.pear_under "e1"; Sample.pear_under "e1"])
                   (mkWorld [] (fun n => String.concat "" (repeat "x" n)) 0) _ _)).
  - cbn [uuids]. intros i j H.
    apply (f_equal String.length) in H.
    assert (L : forall n, String.length (String.concat "" (repeat "x" n)) = n).
    { clear. induction n as [|n IH]; [reflexivity|].
      cbn [repeat String.concat]. destruct (repeat "x" n) eqn:E.
      - destruct n; [reflexivity|discriminate E].
      - cbn [append String.length] in *. rewrite IH. reflexivity. }
    rewrite !L in H. exact H.
  - exists []. repeat split; constructor.
Defined.

(** *** What a stored record is *)

Lemma or_else_truthy (a b : value) : truthy b = true -> truthy (or_else a b) = true.
Proof.
  intros H. unfold or_else. destruct (truthy a) eqn:E; assumption.
Qed.

Lemma record_of_checked (s : string) (e : value) :
  invalid_event e = Normal false -> checked (record_of (VStr s) e).
Proof.
  intros H. pose proof (invalid_event_not_nullish e false H) as Hn.
  rewrite (invalid_event_fields e Hn) in H. injection H as H.
  apply orb_false_elim in H as [Ht H]. apply orb_false_elim in H as [Hi H].
  apply orb_false_elim in H as [Ha Hu].
  apply negb_false_iff in Ht, Hi, Ha, Hu.
  unfold checked, record_of. cbn.
  repeat split; try assumption; try (apply or_else_truthy; reflexivity).
  - destruct (field e "amount"); try discriminate Ha. eexists. reflexivity.
  - unfold coalesce. destruct (field e "calories"); cbn; discriminate.
  - eexists. reflexivity.
Qed.

Lemma records_from_checked (ids : nat -> string) (es : list value) (k : nat) :
  Forall (fun e => invalid_event e = Normal false) es ->
  Forall checked (records_from ids k es).
Proof.
  intros H. revert k. induction H as [|e es He Hes IH]; intros k; cbn; constructor.
  - apply record_of_checked, He.
  - apply IH.
Qed.

(** X5: every record [log_consumption] adds has a non-empty timestamp,
    item, unit, owner and source, a number as amount, a string as
    identifier and calories that are not [undefined]; a store of such
    records stays one, whatever is submitted. *)
Theorem log_consumption_keeps_records_checked (input : value) (w : World) :
  Forall checked (db w) ->
  Forall checked (db (snd (Http.log_consumption input w))).
Proof.
  intros Hdb.
  destruct (log_consumption_events input) as [es Hes].
  destruct (for_of_ingest_prefix es w) as (accepted & rest & _ & Hacc & Hw & _).
  assert (Hsnd : snd (Http.log_consumption input w) = snd (for_of es ingest w)).
  { rewrite Hes. destruct (for_of es ingest w) as [[]]; reflexivity. }
  rewrite Hsnd, Hw. cbn [db]. apply Forall_app. split; [exact Hdb|].
  apply records_from_checked, Hacc.
Qed.

Lemma log_consumption_keeps_records_checked_witness :
  Forall checked (db (snd (Http.log_consumption
                             (batch [Sample.apple; Sample.kilogram; Sample.no_unit])
                             Sample.fresh))).
Proof.
  apply (log_consumption_keeps_records_checked
           (batch [Sample.apple; Sample.kilogram; Sample.no_unit]) Sample.fresh).
  constructor.
Defined.

(** ** In-memory binding: queries *)

Lemma filterC_stops_at_throw {A} (p : A -> completion bool) (xs ys : list A) (y : A)
      (err : exn) :
  Forall (fun x => exists b, p x = Normal b) xs ->
  p y = Throw err ->
  filterC p (xs ++ y :: ys) = Throw err.
Proof.
  intros Hxs Hy. induction Hxs as [|x xs [b Hx] Hxs IH]; cbn.
  - rewrite Hy. reflexivity.
  - rewrite Hx, IH. reflexivity.
Qed.

(** X6: line 22 lets a timestamp through that has no [slice] (a number,
    [true], an object).  Once such an event is stored, every
    [list_consumption] and [summarize_intake] without an owner fails with a
    [TypeError], for this record and for all the others. *)
Theorem stored_timestamp_without_slice_breaks_queries
        (query : value) (e : value) (w : World) :
  Forall has_string_timestamp (db w) ->
  no_filter query ->
  invalid_event e = Normal false ->
  iso (field e "timestamp") = Throw TypeError ->
  let w' := snd (Http.log_consumption (batch [e]) w) in
  Http.list_consumption query w' = (Throw TypeError, w') /\
  Http.summarize_intake query w' = (Throw TypeError, w').
Proof.
  intros Hdb (Hu & Hf & Ht) He Hiso w'.
  assert (Hw' : db w' = db w ++ [record_of (VStr (uuids w (drawn w))) e]).
  { unfold w'. rewrite log_consumption_batch, for_of_cons, (ingest_accepts e w He).
    reflexivity. }
  assert (Hthrow : filterC (keeps (field (args_of query) "user_id")
                                  (field (args_of query) "from")
                                  (field (args_of query) "to")) (db w')
                   = Throw TypeError).
  { rewrite Hw'. apply filterC_stops_at_throw.
    - eapply Forall_impl; [|exact Hdb]. cbn. intros r Hr. eexists.
      apply keeps_on_typed; [exact Hr| |]; apply nullish_string_or_absent; assumption.
    - unfold keeps. rewrite (nullish_falsy _ Hu). cbn [andb].
      change (ev_timestamp (record_of (VStr (uuids w (drawn w))) e))
        with (field e "timestamp").
      rewrite Hiso. reflexivity. }
  split.
  - rewrite list_consumption_filter, Hthrow. reflexivity.
  - rewrite summarize_intake_filter, Hthrow. reflexivity.
Qed.

Lemma stored_timestamp_without_slice_breaks_queries_witness :
  let w' := snd (Http.log_consumption (batch [Fixture.numbered])
                   (snd (Http.log_consumption (batch [Sample.apple]) Sample.fresh))) in
  Http.list_consumption VUndefined w' = (Throw TypeError, w') /\
  Http.summarize_intake VUndefined w' = (Throw TypeError, w').
Proof.
  cbv zeta.
  apply (stored_timestamp_without_slice_breaks_queries
           VUndefined Fixture.numbered
           (snd (Http.log_consumption (batch [Sample.apple]) Sample.fresh))).
  - repeat constructor. eexists. reflexivity.
  - repeat split; reflexivity.
  - reflexivity.
  - reflexivity.
Defined.

(** *** The order of strings *)

Lemma ascii_compare_lt_trans (a b c : ascii) :
  Ascii.compare a b = Lt -> Ascii.compare b c = Lt -> Ascii.compare a c = Lt.
Proof.
  unfold Ascii.compare. rewrite !N.compare_lt_iff. apply N.lt_trans.
Qed.

Lemma string_compare_refl (s : string) : String.compare s s = Eq.
Proof.
  induction s as [|a s IH]; [reflexivity|]. cbn.
  unfold Ascii.compare. rewrite N.compare_refl. exact IH.
Qed.

Lemma string_leb_refl (s : string) : String.leb s s = true.
Proof.
  unfold String.leb. rewrite string_compare_refl. reflexivity.
Qed.

Lemma string_leb_trans (a b c : string) :
  String.leb a b = true -> String.leb b c = true -> String.leb a c = true.
Proof.
  unfold String.leb. revert b c.
  induction a as [|x a IH]; intros b c; destruct b as [|y b], c as [|z c]; cbn;
    try reflexivity; try discriminate.
  destruct (Ascii.compare x y) eqn:Exy; try discriminate;
    destruct (Ascii.compare y z) eqn:Eyz; try discriminate.
  - apply Ascii.compare_eq_iff in Exy, Eyz. subst.
    unfold Ascii.compare. rewrite N.compare_refl. apply IH.
  - apply Ascii.compare_eq_iff in Exy. subst. rewrite Eyz. reflexivity.
  - apply Ascii.compare_eq_iff in Eyz. subst. rewrite Exy. reflexivity.
  - rewrite (ascii_compare_lt_trans x y z Exy Eyz). reflexivity.
Qed.

Lemma string_leb_empty (s : string) : String.leb s "" = true -> s = "".
Proof.
  destruct s; [reflexivity|discriminate].
Qed.

(** X7: narrowing the dates narrows the listing.  On a store whose
    timestamps are strings, for the same owner, a later [from] and an
    earlier [to] list no record that the wider bounds do not list, provided
    the narrower [to] is not the empty string (which is no bound at
    all). *)
Theorem narrower_dates_list_fewer (user_id : value) (from from' to to' : string)
        (w : World) :
  Forall has_string_timestamp (db w) ->
  String.leb from from' = true ->
  String.leb to' to = true ->
  to' <> "" ->
  exists wide narrow,
    Http.list_consumption
      (VObj [("user_id", user_id); ("from", VStr from); ("to", VStr to)]) w
    = (Normal (mkListing wide), w) /\
    Http.list_consumption
      (VObj [("user_id", user_id); ("from", VStr from'); ("to", VStr to')]) w
    = (Normal (mkListing narrow), w) /\
    incl narrow wide.
Proof.
  intros Hdb Hfrom Hto Hto'.
  exists (filter (keeps_typed user_id (VStr from) (VStr to)) (db w)),
         (filter (keeps_typed user_id (VStr from') (VStr to')) (db w)).
  assert (Hlist : forall f t,
             Http.list_consumption
               (VObj [("user_id", user_id); ("from", VStr f); ("to", VStr t)]) w
             = (Normal (mkListing (filter (keeps_typed user_id (VStr f) (VStr t)) (db w))),
                w)).
  { intros f t. rewrite list_consumption_filter.
    change (args_of (VObj [("user_id", user_id); ("from", VStr f); ("to", VStr t)]))
      with (VObj [("user_id", user_id); ("from", VStr f); ("to", VStr t)]).
    change (field (VObj [("user_id", user_id); ("from", VStr f); ("to", VStr t)]) "user_id")
      with user_id.
    change (field (VObj [("user_id", user_id); ("from", VStr f); ("to", VStr t)]) "from")
      with (VStr f).
    change (field (VObj [("user_id", user_id); ("from", VStr f); ("to", VStr t)]) "to")
      with (VStr t).
    rewrite (filterC_total _ (keeps_typed user_id (VStr f) (VStr t))); [reflexivity|].
    eapply Forall_impl; [|exact Hdb]. cbn. intros r Hr.
    apply keeps_on_typed; [exact Hr| |]; right; right; eexists; reflexivity. }
  split; [apply Hlist|]. split; [apply Hlist|].
  intros r Hr. apply filter_In in Hr as [Hin Hk]. apply filter_In. split; [exact Hin|].
  unfold keeps_typed in *. cbn [truthy] in *.
  apply andb_prop in Hk as [Hk Hkt]. apply andb_prop in Hk as [Hku Hkf].
  rewrite Hku. cbn [andb].
  apply String.eqb_neq in Hto'. rewrite Hto' in Hkt. cbn in Hkt.
  apply andb_true_intro. split.
  - destruct (from =? "") eqn:Ef; [reflexivity|]. cbn.
    destruct (from' =? "") eqn:Ef'.
    + apply String.eqb_eq in Ef'. subst from'.
      apply string_leb_empty in Hfrom. subst from. discriminate Ef.
    + cbn in Hkf. apply (string_leb_trans from from' _ Hfrom Hkf).
  - destruct (to =? "") eqn:Et; [reflexivity|]. cbn.
    apply (string_leb_trans _ to' to Hkt Hto).
Qed.

Lemma narrower_dates_list_fewer_witness :
  exists wide narrow,
    Http.list_consumption
      (VObj [("user_id", VUndefined); ("from", VStr "2024-01-01"); ("to", VStr "2024-12-31")])
      (snd (Http.log_consumption Sample.three_meals Sample.fresh))
    = (Normal (mkListing wide), snd (Http.log_consumption Sample.three_meals Sample.fresh)) /\
    Http.list_consumption
      (VObj [("user_id", VUndefined); ("from", VStr "2024-03-01"); ("to", VStr "2024-03-01")])
      (snd (Http.log_consumption Sample.three_meals Sample.fresh))
    = (Normal (mkListing narrow), snd (Http.log_consumption Sample.three_meals Sample.fresh)) /\
    incl narrow wide.
Proof.
  apply (narrower_dates_list_fewer VUndefined "2024-01-01" "2024-03-01"
                                   "2024-12-31" "2024-03-01"
                                   (snd (Http.log_consumption Sample.three_meals Sample.fresh))).
  - repeat constructor; eexists; reflexivity.
  - reflexivity.
  - reflexivity.
  - discriminate.
Defined.

(** ** In-memory binding: the request handler *)

Lemma existsb_eqb_false (s : string) (l : list string) :
  ~ In s l -> existsb (String.eqb s) l = false.
Proof.
  intros H. induction l as [|x l IH]; [reflexivity|]. cbn.
  destruct (s =? x) eqn:E.
  - apply String.eqb_eq in E. subst. exfalso. apply H. left. reflexivity.
  - apply IH. intros Hin. apply H. right. exact Hin.
Qed.

(** X8: a POST whose [tool] is missing, empty or a string that names
    neither a tool nor a property every object has is answered 400
    "Unknown or missing tool", whatever its [input], and leaves the store
    alone. *)
Theorem unknown_tool_is_rejected (path : string) (payload name : value) (w : World) :
  get_opt payload "tool" = Normal name ->
  truthy name = false \/
  (exists s, name = VStr s /\ ~ In s HttpServer.tool_names
             /\ ~ In s HttpServer.inherited_names) ->
  HttpServer.handle (HttpServer.mkRequest "POST" path (HttpServer.Parsed payload)) w
  = (Normal (HttpServer.sendJson 400
               (HttpServer.ErrorJson (HttpServer.Msg "Unknown or missing tool"))), w).
Proof.
  intros Hname Hcase. unfold HttpServer.handle. cbn [HttpServer.method HttpServer.body].
  change ("POST" =? "GET") with false. change ("POST" =? "OPTIONS") with false.
  change ("POST" =? "POST") with true. cbn [andb].
  unfold HttpServer.dispatch. rewrite Hname.
  destruct (get_opt_never_throws payload "input") as [input ->].
  destruct Hcase as [Hfalsy|(s & -> & Htool & Hinh)].
  - rewrite Hfalsy. reflexivity.
  - destruct (truthy (VStr s)); [|reflexivity]. cbn [negb].
    rewrite (existsb_eqb_false s _ Htool), (existsb_eqb_false s _ Hinh). reflexivity.
Qed.

Lemma unknown_tool_is_rejected_witness :
  HttpServer.handle
    (HttpServer.mkRequest "POST" "/"
       (HttpServer.Parsed (VObj [("tool", VStr "delete_consumption");
                                 ("input", batch [Sample.apple])])))
    Sample.fresh
  = (Normal (HttpServer.sendJson 400
               (HttpServer.ErrorJson (HttpServer.Msg "Unknown or missing tool"))),
     Sample.fresh).
Proof.
  apply (unknown_tool_is_rejected "/"
           (VObj [("tool", VStr "delete_consumption"); ("input", batch [Sample.apple])])
           (VStr "delete_consumption") Sample.fresh).
  - reflexivity.
  - right. exists "delete_consumption". split; [reflexivity|].
    split; intros H; cbn in H; repeat (destruct H as [H|H]; [discriminate H|]); exact H.
Defined.

Lemma list_consumption_world (input : value) (w : World) :
  snd (Http.list_consumption input w) = w.
Proof.
  rewrite list_consumption_filter. reflexivity.
Qed.

Lemma summarize_intake_world (input : value) (w : World) :
  snd (Http.summarize_intake input w) = w.
Proof.
  rewrite summarize_intake_filter. reflexivity.
Qed.

(** X9: of the requests the handler answers here (the [tool] a string,
    or not truthy), the only one that can change the store or advance the
    identifier generator is a POST whose [tool] is "log_consumption": no
    GET, no OPTIONS, no malformed body, no unknown tool and neither of the
    two queries does. *)
Theorem only_log_consumption_changes_the_world (req : HttpServer.Request)
        (w w' : World) (answer : HttpServer.Response) :
  HttpServer.handle req w = (Normal answer, w') ->
  w' <> w ->
  HttpServer.method req = "POST" /\
  exists payload,
    HttpServer.body req = HttpServer.Parsed payload /\
    get_opt payload "tool" = Normal (VStr "log_consumption").
Proof.
  unfold HttpServer.handle.
  destruct ((HttpServer.method req =? "GET") && (HttpServer.url req =? "/"));
    [intros H Hw; exfalso; apply Hw; congruence|].
  destruct (HttpServer.method req =? "OPTIONS");
    [intros H Hw; exfalso; apply Hw; congruence|].
  destruct (HttpServer.method req =? "POST") eqn:Epost;
    [|intros H Hw; exfalso; apply Hw; congruence].
  apply String.eqb_eq in Epost.
  destruct (HttpServer.body req) as [payload|];
    [|intros H Hw; exfalso; apply Hw; congruence].
  intros H Hw. split; [exact Epost|]. exists payload. split; [reflexivity|].
  unfold HttpServer.dispatch in H.
  destruct (get_opt_never_throws payload "tool") as [name Hname].
  destruct (get_opt_never_throws payload "input") as [input Hinput].
  rewrite Hname, Hinput in H. rewrite Hname. f_equal.
  destruct (negb (truthy name)); [exfalso; apply Hw; congruence|].
  destruct name as [| | | |s| |]; try discriminate H.
  destruct (s =? "log_consumption") eqn:Elog;
    [apply String.eqb_eq in Elog; subst; reflexivity|].
  exfalso. apply Hw. cbn [existsb HttpServer.tool_names] in H. rewrite Elog in H.
  cbn [orb] in H. unfold HttpServer.call_tool in H. rewrite Elog in H.
  destruct (s =? "list_consumption") eqn:Elist.
  - cbn [orb] in H. unfold bind, ret in H.
    pose proof (list_consumption_world input w) as Hsame.
    destruct (Http.list_consumption input w) as [[r|err|] w1]; cbn in Hsame;
      subst w1; congruence.
  - destruct (s =? "summarize_intake") eqn:Esum.
    + cbn [orb] in H. unfold bind, ret in H.
      pose proof (summarize_intake_world input w) as Hsame.
      destruct (Http.summarize_intake input w) as [[r|err|] w1]; cbn in Hsame;
        subst w1; congruence.
    + cbn [orb] in H. destruct (existsb _ HttpServer.inherited_names); congruence.
Qed.

Lemma only_log_consumption_changes_the_world_witness :
  HttpServer.method
    (HttpServer.mkRequest "POST" "/"
       (HttpServer.Parsed (VObj [("tool", VStr "log_consumption");
                                 ("input", batch [Sample.apple])])))
  = "POST".
Proof.
  refine (proj1 (only_log_consumption_changes_the_world
                   (HttpServer.mkRequest "POST" "/"
                      (HttpServer.Parsed (VObj [("tool", VStr "log_consumption");
                                                ("input", batch [Sample.apple])])))
                   Sample.fresh
                   (mkWorld [record_of (VStr (Sample.uuids 0)) Sample.apple] Sample.uuids 1)
                   (HttpServer.sendJson 200
                      (HttpServer.DataJson (HttpServer.DSaved (mkSaved 1))))
                   _ _)).
  - reflexivity.
  - intros H. apply (f_equal drawn) in H. cbn in H. discriminate H.
Defined.

Lemma accepted_or_invalid (es : list value) :
  Forall (fun e => nullish e = false) es ->
  Forall (fun e => invalid_event e = Normal false) es \/
  Exists (fun e => invalid_event e = Normal true) es.
Proof.
  induction 1 as [|e es He Hes IH]; [left; constructor|].
  pose proof (invalid_event_fields e He) as Hb.
  destruct (negb (truthy (field e "timestamp")) || _) in Hb.
  - right. constructor. exact Hb.
  - destruct IH as [IH|IH]; [left; constructor; assumption|right; constructor 2; exact IH].
Qed.

(** X10: a POST of [log_consumption] with a batch of events, none of them
    [null], has two possible answers: 200 with [saved_count] the size of
    the batch, when every event passes the check of line 22, and 400
    "Invalid event" when one does not. *)
Theorem post_log_consumption_answers (path : string) (es : list value) (w : World) :
  Forall (fun e => nullish e = false) es ->
  let answer :=
    fst (HttpServer.handle
           (HttpServer.mkRequest "POST" path
              (HttpServer.Parsed (VObj [("tool", VStr "log_consumption");
                                        ("input", batch es)]))) w) in
  (Forall (fun e => invalid_event e = Normal false) es /\
   answer = Normal (HttpServer.sendJson 200
                      (HttpServer.DataJson (HttpServer.DSaved (mkSaved (List.length es))))))
  \/
  (Exists (fun e => invalid_event e = Normal true) es /\
   answer = Normal (HttpServer.sendJson 400
                      (HttpServer.ErrorJson (HttpServer.Msg "Invalid event")))).
Proof.
  intros Hes answer.
  assert (Hanswer : answer =
                    match Http.log_consumption (batch es) w with
                    | (Normal r, _) =>
                        Normal (HttpServer.sendJson 200
                                  (HttpServer.DataJson (HttpServer.DSaved r)))
                    | (Throw e, _) =>
                        Normal (HttpServer.sendJson 400
                                  (HttpServer.ErrorJson (HttpServer.error_text e)))
                    | (Unmodelled, _) => Unmodelled
                    end).
  { unfold answer, HttpServer.handle. cbn [HttpServer.method HttpServer.body].
    change ("POST" =? "GET") with false. change ("POST" =? "OPTIONS") with false.
    change ("POST" =? "POST") with true. cbn [andb].
    unfold HttpServer.dispatch.
    change (get_opt (VObj [("tool", VStr "log_consumption"); ("input", batch es)]) "tool")
      with (Normal (VStr "log_consumption")).
    change (get_opt (VObj [("tool", VStr "log_consumption"); ("input", batch es)]) "input")
      with (Normal (batch es)).
    change (negb (truthy (VStr "log_consumption"))) with false.
    change (existsb (String.eqb "log_consumption") HttpServer.tool_names) with true.
    cbv iota. unfold HttpServer.call_tool.
    change ("log_consumption" =? "log_consumption") with true. cbv iota.
    unfold bind, ret.
    destruct (Http.log_consumption (batch es) w) as [[r|e|] w1]; reflexivity. }
  rewrite Hanswer.
  destruct (accepted_or_invalid es Hes) as [Hacc|Hinv].
  - left. split; [exact Hacc|].
    rewrite log_consumption_batch, (for_of_ingest_accepts es w Hacc). reflexivity.
  - right. split; [exact Hinv|].
    pose proof (log_consumption_invalid_batch_throws es w Hes Hinv) as Hthrow.
    destruct (Http.log_consumption (batch es) w) as [[r|e|] w1]; cbn in Hthrow;
      try discriminate Hthrow.
    injection Hthrow as ->. reflexivity.
Qed.

Lemma post_log_consumption_answers_witness :
  let answer :=
    fst (HttpServer.handle
           (HttpServer.mkRequest "POST" "/"
              (HttpServer.Parsed (VObj [("tool", VStr "log_consumption");
                                        ("input", batch [Sample.apple; Sample.no_unit])])))
           Sample.fresh) in
  (Forall (fun e => invalid_event e = Normal false) [Sample.apple; Sample.no_unit] /\
   answer = Normal (HttpServer.sendJson 200
                      (HttpServer.DataJson (HttpServer.DSaved (mkSaved 2)))))
  \/
  (Exists (fun e => invalid_event e = Normal true) [Sample.apple; Sample.no_unit] /\
   answer = Normal (HttpServer.sendJson 400
                      (HttpServer.ErrorJson (HttpServer.Msg "Invalid event")))).
Proof.
  apply (post_log_consumption_answers "/" [Sample.apple; Sample.no_unit] Sample.fresh).
  repeat constructor.
Defined.

(** ** Tool-protocol binding *)

Lemma lookup_set_prop_same (k : string) (v : value) (props : list (string * value)) :
  lookup k (Mcp.set_prop k v props) = v.
Proof.
  induction props as [|[k' v'] props IH]; cbn.
  - rewrite String.eqb_refl. reflexivity.
  - destruct (k' =? k) eqn:E; cbn; rewrite E; [reflexivity|exact IH].
Qed.

Lemma lookup_set_prop_other (k k0 : string) (v : value) (props : list (string * value)) :
  k <> k0 -> lookup k0 (Mcp.set_prop k v props) = lookup k0 props.
Proof.
  intros Hk. induction props as [|[k' v'] props IH]; cbn.
  - apply String.eqb_neq in Hk. rewrite Hk. reflexivity.
  - destruct (k' =? k) eqn:E; cbn.
    + apply String.eqb_eq in E. subst k'.
      apply String.eqb_neq in Hk. rewrite Hk. reflexivity.
    + rewrite IH. reflexivity.
Qed.

Lemma validate_object (e : value) :
  Mcp.validate e = true -> exists props, e = VObj props.
Proof.
  destruct e; cbn; intros H; try discriminate H. eexists. reflexivity.
Qed.

Lemma caller_truthy (user : value) : truthy (caller user) = true.
Proof.
  unfold caller. apply or_else_truthy. reflexivity.
Qed.

Lemma log_consumption_caller (user : value) :
  get_opt user "id" = Normal (match get_opt user "id" with Normal x => x | _ => VUndefined end).
Proof.
  destruct (get_opt_never_throws user "id") as [x ->]. reflexivity.
Qed.

(** What the callback of [forEach] does with an event that validates. *)
Lemma store_accepts (uid : value) (e : value) (w : Mcp.World) :
  Mcp.validate e = true ->
  exists r,
    Mcp.store uid e w =
    (Normal tt,
     Mcp.mkWorld (Mcp.db w ++ [r]) (Mcp.ids w)
                 (if truthy (field e "id") then Mcp.drawn w else S (Mcp.drawn w))) /\
    (exists props, r = VObj props) /\
    filled_in uid e r.
Proof.
  intros Hv. destruct (validate_object e Hv) as [props ->].
  unfold Mcp.store. rewrite Hv. cbn [negb].
  unfold Mcp.bind at 1, Mcp.lift at 1. cbn [get].
  change (field (VObj props) "id") with (lookup "id" props).
  set (id := if truthy (lookup "id" props) then lookup "id" props
             else VStr (Mcp.ids w (Mcp.drawn w))).
  set (props1 := Mcp.set_prop "id" id props).
  set (owner := or_else (lookup "user_id" props1) uid).
  exists (VObj (Mcp.set_prop "user_id" owner props1)).
  assert (Hother : lookup "user_id" props1 = lookup "user_id" props).
  { apply lookup_set_prop_other. discriminate. }
  split; [|split; [eexists; reflexivity|]].
  - destruct (truthy (lookup "id" props)) eqn:Eid; reflexivity.
  - unfold filled_in. cbn [field get].
    change (field (VObj props)) with (fun k => lookup k props). cbn beta.
    repeat split.
    + intros k Hid Hu.
      rewrite (lookup_set_prop_other "user_id" k) by congruence.
      apply lookup_set_prop_other. congruence.
    + intros Ht. rewrite (lookup_set_prop_other "user_id" "id") by discriminate.
      unfold props1. rewrite lookup_set_prop_same. unfold id. rewrite Ht. reflexivity.
    + intros Hf. rewrite (lookup_set_prop_other "user_id" "id") by discriminate.
      unfold props1. rewrite lookup_set_prop_same. unfold id. rewrite Hf.
      eexists. reflexivity.
    + intros Ht. rewrite lookup_set_prop_same. unfold owner, or_else.
      rewrite Hother, Ht. reflexivity.
    + intros Hf. rewrite lookup_set_prop_same. unfold owner, or_else.
      rewrite Hother, Hf. reflexivity.
Qed.

Lemma store_rejects (uid : value) (e : value) (w : Mcp.World) :
  Mcp.validate e = false -> Mcp.store uid e w = (Throw (Error "Invalid event"), w).
Proof.
  intros Hv. unfold Mcp.store. rewrite Hv. reflexivity.
Qed.

Lemma forEach_cons {A} (x : A) (xs : list A) (body : A -> Mcp.M unit) (w : Mcp.World) :
  Mcp.forEach (x :: xs) body w =
  match body x w with
  | (Normal _, w') => Mcp.forEach xs body w'
  | (Throw err, w') => (Throw err, w')
  | (Unmodelled, w') => (Unmodelled, w')
  end.
Proof.
  reflexivity.
Qed.

Lemma validate_fields (props : list (string * value)) :
  Mcp.validate (VObj props) = true ->
  (exists s, lookup "timestamp" props = VStr s) /\
  (exists s, lookup "item" props = VStr s) /\
  (exists x, lookup "amount" props = VNum x) /\
  (exists s, lookup "unit" props = VStr s /\ In s Mcp.unit_enum) /\
  (exists s, lookup "source" props = VStr s).
Proof.
  unfold Mcp.validate, Mcp.property_ok. cbn [forallb Mcp.required].
  intros H.
  apply andb_prop in H as [H Hsource]. apply andb_prop in H as [H Hunit].
  apply andb_prop in H as [H Hamount]. apply andb_prop in H as [H Hitem].
  apply andb_prop in H as [H Htimestamp]. apply andb_prop in H as [H _].
  apply andb_prop in H as [H _].
  apply andb_prop in H as [Rtimestamp H]. apply andb_prop in H as [Ritem H].
  apply andb_prop in H as [Ramount H]. apply andb_prop in H as [Runit H].
  apply andb_prop in H as [Rsource _].
  repeat split.
  - destruct (lookup "timestamp" props); cbn in *; try discriminate. eexists; reflexivity.
  - destruct (lookup "item" props); cbn in *; try discriminate. eexists; reflexivity.
  - destruct (lookup "amount" props); cbn in *; try discriminate. eexists; reflexivity.
  - destruct (lookup "unit" props) as [| | | |s| |]; cbn in Hunit, Runit; try discriminate.
    exists s. split; [reflexivity|]. unfold Mcp.unit_enum. cbn.
    destruct (s =? "g") eqn:E1; [apply String.eqb_eq in E1; auto|].
    destruct (s =? "ml") eqn:E2; [apply String.eqb_eq in E2; auto|].
    destruct (s =? "piece") eqn:E3; [apply String.eqb_eq in E3; auto|].
    destruct (s =? "serving") eqn:E4; [apply String.eqb_eq in E4; auto 6|].
    discriminate Hunit.
  - destruct (lookup "source" props); cbn in *; try discriminate. eexists; reflexivity.
Qed.

Lemma stored_schema_record (uid e r : value) :
  Mcp.validate e = true -> truthy uid = true ->
  (exists props, r = VObj props) -> filled_in uid e r ->
  schema_record r.
Proof.
  intros Hv Huid Hobj (Hsame & _ & _ & Hown & Hdefault).
  destruct (validate_object e Hv) as [props ->].
  destruct (validate_fields props Hv) as (Ht & Hi & Ha & Hu & Hs).
  unfold schema_record.
  rewrite !Hsame by discriminate.
  change (field (VObj props)) with (fun k => lookup k props). cbn beta.
  repeat split; try assumption.
  destruct (truthy (lookup "user_id" props)) eqn:E.
  - rewrite (Hown E). exact E.
  - rewrite (Hdefault E). exact Huid.
Qed.

(** Every turn of [forEach] appends at most one object, and that object
    has the shape the schema asks for. *)
Lemma forEach_store_appends (uid : value) (es : list value) (w : Mcp.World) :
  truthy uid = true ->
  exists new,
    Mcp.db (snd (Mcp.forEach es (Mcp.store uid) w)) = Mcp.db w ++ new /\
    Mcp.ids (snd (Mcp.forEach es (Mcp.store uid) w)) = Mcp.ids w /\
    Forall schema_record new.
Proof.
  intros Huid. revert w. induction es as [|e es IH]; intros w.
  - exists []. cbn. rewrite app_nil_r. auto.
  - rewrite forEach_cons. destruct (Mcp.validate e) eqn:Hv.
    + destruct (store_accepts uid e w Hv) as (r & Hstore & Hobj & Hfilled).
      rewrite Hstore.
      match goal with
      | |- context [Mcp.forEach es _ ?w1] => destruct (IH w1) as (new & Hdb & Hids & Hnew)
      end.
      exists (r :: new). rewrite Hdb, Hids. cbn. rewrite <- app_assoc.
      repeat split; try reflexivity.
      constructor; [|exact Hnew]. exact (stored_schema_record uid e r Hv Huid Hobj Hfilled).
    + rewrite (store_rejects uid e w Hv). exists []. cbn. rewrite app_nil_r. auto.
Qed.

(** A batch whose events all validate is stored whole. *)
Lemma forEach_store_accepts (uid : value) (es : list value) (w : Mcp.World) :
  Forall (fun e => Mcp.validate e = true) es ->
  exists new,
    Mcp.forEach es (Mcp.store uid) w =
    (Normal tt,
     Mcp.mkWorld (Mcp.db w ++ new) (Mcp.ids w)
                 (List.length (filter (fun e => negb (truthy (field e "id"))) es)
                  + Mcp.drawn w)) /\
    Forall2 (filled_in uid) es new /\
    Forall (fun r => exists props, r = VObj props) new.
Proof.
  intros Hes. revert w. induction Hes as [|e es He Hes IH]; intros w.
  - exists []. cbn. rewrite app_nil_r. destruct w. auto.
  - rewrite forEach_cons.
    destruct (store_accepts uid e w He) as (r & Hstore & Hobj & Hfilled).
    rewrite Hstore.
    match goal with
    | |- context [Mcp.forEach es _ ?w1] => destruct (IH w1) as (new & Hrun & Hnew & Hobjs)
    end.
    exists (r :: new). rewrite Hrun. cbn [Mcp.db Mcp.ids Mcp.drawn filter].
    split; [|split; constructor; assumption].
    rewrite <- app_assoc. cbn [app].
    destruct (truthy (field e "id")); cbn [negb List.length]; [reflexivity|].
    rewrite Nat.add_succ_r. reflexivity.
Qed.

(** X11: unlike the in-memory binding, the tool-protocol one does not
    take a missing [events] for an empty batch: when [input] is [null], or
    its [events] is missing or not an array, the handler throws a
    [TypeError] and the store is as it was. *)
Theorem mcp_log_consumption_needs_an_array (input user : value) (w : Mcp.World) :
  (forall es, get input "events" <> Normal (VArr es)) ->
  Mcp.log_consumption input user w = (Throw TypeError, w).
Proof.
  intros H. unfold Mcp.log_consumption, Mcp.bind at 1, Mcp.lift at 1.
  destruct (get_opt_never_throws user "id") as [x ->].
  unfold Mcp.bind, Mcp.lift.
  destruct (get input "events") as [events|err|] eqn:E.
  - destruct events; try reflexivity. exfalso. apply (H elems). reflexivity.
  - destruct input; cbn in E; try discriminate E; injection E as <-; reflexivity.
  - destruct input; discriminate E.
Qed.

Lemma mcp_log_consumption_needs_an_array_witness :
  Mcp.log_consumption (VObj []) VUndefined Fixture.started = (Throw TypeError, Fixture.started)
  /\ Mcp.log_consumption VNull VUndefined Fixture.started = (Throw TypeError, Fixture.started).
Proof.
  split.
  - apply (mcp_log_consumption_needs_an_array (VObj []) VUndefined Fixture.started).
    intros es H. discriminate H.
  - apply (mcp_log_consumption_needs_an_array VNull VUndefined Fixture.started).
    intros es H. discriminate H.
Defined.

(** X12: whatever is submitted and by whom, every object the handler adds
    to [db] is an object with a string timestamp, item and source, a number
    as amount, a unit of the enumeration and a non-empty owner; a store of
    such objects stays one, and the objects already there stay in place. *)
Theorem mcp_log_consumption_keeps_schema (input user : value) (w : Mcp.World) :
  Forall schema_record (Mcp.db w) ->
  exists new,
    Mcp.db (snd (Mcp.log_consumption input user w)) = Mcp.db w ++ new /\
    Forall schema_record (Mcp.db w ++ new).
Proof.
  intros Hdb. unfold Mcp.log_consumption, Mcp.bind at 1, Mcp.lift at 1.
  rewrite (log_consumption_caller user). fold (caller user).
  unfold Mcp.bind at 1, Mcp.lift.
  assert (Hnone : exists new, Mcp.db w = Mcp.db w ++ new /\
                              Forall schema_record (Mcp.db w ++ new)).
  { exists []. rewrite app_nil_r. auto. }
  destruct (get input "events") as [events|err|]; cbn [snd]; try exact Hnone.
  destruct events as [| | | | |es|]; try exact Hnone.
  destruct (forEach_store_appends (caller user) es w (caller_truthy user))
    as (new & Hnew & _ & Hschema).
  exists new. split.
  - unfold Mcp.bind, Mcp.ret.
    destruct (Mcp.forEach es (Mcp.store (caller user)) w) as [[]]; exact Hnew.
  - apply Forall_app. auto.
Qed.

Lemma mcp_log_consumption_keeps_schema_witness :
  exists new,
    Mcp.db (snd (Mcp.log_consumption (batch [Fixture.toast; Fixture.numbered])
                                     (VObj [("id", VStr "ann")]) Fixture.started))
    = [] ++ new /\
    Forall schema_record ([] ++ new).
Proof.
  apply (mcp_log_consumption_keeps_schema (batch [Fixture.toast; Fixture.numbered])
                                          (VObj [("id", VStr "ann")]) Fixture.started).
  constructor.
Defined.

Lemma mcp_keeps_on_schema (uid from to : value) (e : value) :
  schema_record e -> string_or_absent from -> string_or_absent to ->
  Mcp.keeps uid from to e = Normal (keeps_object uid from to e).
Proof.
  intros ([props ->] & [ts Hts] & _) Hf Ht.
  unfold Mcp.keeps, keeps_object, date_of_object. cbn [get].
  change (field (VObj props)) with (fun k => lookup k props) in *. cbn beta in *.
  rewrite Hts. cbn [Mcp.iso slice_0_10 bindC].
  destruct (truthy uid); cbn [bindC negb orb andb].
  - destruct (strict_eq (lookup "user_id" props) uid); cbn [negb andb]; [|reflexivity].
    destruct Hf as [->|[->|[sf ->]]]; destruct Ht as [->|[->|[st ->]]]; cbn;
      rewrite ?ltb_is_not_leb;
      repeat match goal with
             | |- context [negb (?s =? "")] => destruct (s =? ""); cbn
             | |- context [String.leb ?a ?b] => destruct (String.leb a b); cbn
             end; reflexivity.
  - destruct Hf as [->|[->|[sf ->]]]; destruct Ht as [->|[->|[st ->]]]; cbn;
      rewrite ?ltb_is_not_leb;
      repeat match goal with
             | |- context [negb (?s =? "")] => destruct (s =? ""); cbn
             | |- context [String.leb ?a ?b] => destruct (String.leb a b); cbn
             end; reflexivity.
Qed.

Lemma mcp_list_on_schema (uid from to : value) (w : Mcp.World) :
  Forall schema_record (Mcp.db w) -> string_or_absent from -> string_or_absent to ->
  Mcp.list uid from to w = (Normal (filter (keeps_object uid from to) (Mcp.db w)), w).
Proof.
  intros Hdb Hf Ht. unfold Mcp.list.
  rewrite (filterC_total _ (keeps_object uid from to)); [reflexivity|].
  eapply Forall_impl; [|exact Hdb]. cbn. intros e He.
  apply mcp_keeps_on_schema; assumption.
Qed.

(** X13: on a store of objects of the schema's shape, the handler of
    [list_consumption] never fails on a record: for bounds that are strings
    when present it returns the stored objects of the requested owner
    within the bounds, in the order of [db], and it throws a [TypeError]
    only when it is given no [input] at all. *)
Theorem mcp_list_consumption_on_schema_store (input : value) (w : Mcp.World) :
  Forall schema_record (Mcp.db w) ->
  string_or_absent (field input "from") ->
  string_or_absent (field input "to") ->
  Mcp.list_consumption input w =
  (if nullish input then Throw TypeError
   else Normal (filter (keeps_object (field input "user_id") (field input "from")
                                     (field input "to")) (Mcp.db w)),
   w).
Proof.
  intros Hdb Hf Ht. unfold Mcp.list_consumption, Mcp.bind, Mcp.lift.
  destruct (nullish input) eqn:En.
  - destruct input; try discriminate En; reflexivity.
  - rewrite !(get_field input) by exact En.
    rewrite mcp_list_on_schema by assumption. reflexivity.
Qed.

Ltac schema_record_by_computation :=
  refine (conj _ (conj _ (conj _ (conj _ (conj _ (conj _ _))))));
  [eexists; reflexivity
  |eexists; reflexivity
  |eexists; reflexivity
  |eexists; reflexivity
  |eexists; split; [reflexivity|cbn; auto 6]
  |eexists; reflexivity
  |reflexivity].

Lemma mcp_list_consumption_on_schema_store_witness :
  Mcp.list_consumption
    (VObj [("user_id", VStr "ann"); ("from", VStr "2024-05-01")])
    (snd (Mcp.log_consumption (batch [Fixture.toast; Fixture.juice]) VUndefined
                              Fixture.started))
  = (Normal [VObj [("id", VStr "evt-7"); ("user_id", VStr "ann");
                   ("timestamp", VStr "2024-05-02T07:20:00Z"); ("item", VStr "juice");
                   ("amount", VNum 200); ("unit", VStr "ml"); ("source", VStr "import")]],
     snd (Mcp.log_consumption (batch [Fixture.toast; Fixture.juice]) VUndefined
                              Fixture.started)).
Proof.
  apply (mcp_list_consumption_on_schema_store
           (VObj [("user_id", VStr "ann"); ("from", VStr "2024-05-01")])
           (snd (Mcp.log_consumption (batch [Fixture.toast; Fixture.juice]) VUndefined
                                     Fixture.started))).
  - repeat (constructor; [schema_record_by_computation|]). constructor.
  - right; right; eexists; reflexivity.
  - left; reflexivity.
Defined.

Lemma keeps_object_no_filter (uid from to : value) (e : value) :
  truthy uid = false -> truthy from = false -> truthy to = false ->
  keeps_object uid from to e = true.
Proof.
  intros Hu Hf Ht. unfold keeps_object. rewrite Hu, Hf, Ht. reflexivity.
Qed.

(** X14: submit, then list.  When every event of a batch validates, the
    handler stores them all and the listing without arguments returns the
    objects the store held followed by one object per event, in the order
    of the batch: each is the submitted object with [id] and [user_id]
    kept when they were there and filled in (a new identifier, the
    caller's id or "u1") when they were not, and every other property,
    [notes] and [calories] included, as submitted.  An identifier is drawn
    only for the events that came without one. *)
Theorem mcp_log_then_list (es : list value) (user : value) (w : Mcp.World) :
  Forall (fun e => Mcp.validate e = true) es ->
  Forall schema_record (Mcp.db w) ->
  exists new w',
    Mcp.log_consumption (batch es) user w = (Normal (mkSaved (List.length es)), w') /\
    Mcp.list_consumption (VObj []) w' = (Normal (Mcp.db w ++ new), w') /\
    Forall2 (filled_in (caller user)) es new /\
    Mcp.drawn w'
    = List.length (filter (fun e => negb (truthy (field e "id"))) es) + Mcp.drawn w.
Proof.
  intros Hes Hdb.
  destruct (forEach_store_accepts (caller user) es w Hes) as (new & Hrun & Hfilled & Hobj).
  exists new. eexists. split; [|split; [|split]].
  - unfold Mcp.log_consumption, Mcp.bind at 1, Mcp.lift at 1.
    rewrite (log_consumption_caller user). fold (caller user).
    unfold Mcp.bind at 1, Mcp.lift.
    change (get (batch es) "events") with (Normal (VArr es)). cbv iota.
    unfold Mcp.bind, Mcp.ret. rewrite Hrun. reflexivity.
  - unfold Mcp.list_consumption, Mcp.bind, Mcp.lift. cbn [get lookup].
    rewrite mcp_list_on_schema; [|cbn [Mcp.db]|left; reflexivity|left; reflexivity].
    + cbn [Mcp.db]. f_equal. f_equal.
      rewrite <- (filter_all (Mcp.db w ++ new)) at 2.
      apply filter_ext. intros e. apply keeps_object_no_filter; reflexivity.
    + apply Forall_app. split; [exact Hdb|].
      clear Hrun. induction Hfilled as [|e r es' new' Hf Hfs IH]; [constructor|].
      inversion Hes as [|? ? He Hes']; subst. inversion Hobj as [|? ? Hr Hobj']; subst.
      constructor; [|apply IH; assumption].
      exact (stored_schema_record (caller user) e r He (caller_truthy user) Hr Hf).
  - exact Hfilled.
  - reflexivity.
Qed.

Lemma mcp_log_then_list_witness :
  exists new w',
    Mcp.log_consumption (batch [Fixture.toast; Fixture.juice]) (VObj [("id", VStr "bob")])
                        Fixture.started
    = (Normal (mkSaved 2), w') /\
    Mcp.list_consumption (VObj []) w' = (Normal ([] ++ new), w') /\
    Forall2 (filled_in (VStr "bob")) [Fixture.toast; Fixture.juice] new /\
    Mcp.drawn w' = 1 + 0.
Proof.
  apply (mcp_log_then_list [Fixture.toast; Fixture.juice] (VObj [("id", VStr "bob")])
                           Fixture.started).
  - repeat constructor.
  - constructor.
Defined.

(** *** Aggregation *)

Lemma mcp_reduce_calories (evs : list value) (s : float) :
  Forall calories_number_or_absent evs ->
  reduceC (fun sum e =>
             bindC (get e "calories") (fun calories =>
             add sum (coalesce calories (VNum 0))))
          evs (VNum s)
  = Normal (VNum (fold_left (fun s e => (s + calories_of e)%float) evs s)).
Proof.
  intros H. revert s. induction H as [|e evs [Hn He] Hevs IH]; intros s; [reflexivity|].
  cbn [reduceC fold_left]. rewrite (get_field e "calories" Hn). cbn [bindC].
  unfold calories_of.
  destruct He as [Hc|[x Hc]].
  - destruct (field e "calories"); try discriminate Hc; cbn; apply IH.
  - rewrite Hc. cbn. apply IH.
Qed.

(** X15: in this binding the total is the plain left-to-right sum of the
    calories of the listed objects, from 0, an absent value ([null] or no
    property) counting as 0 and every number, zero of either sign and NaN
    included, counting as itself; [events_count] is the number of listed
    objects; and the handler fails exactly as its listing does. *)
Theorem mcp_summarize_intake_sums (input : value) (w : Mcp.World) :
  Forall calories_number_or_absent (Mcp.db w) ->
  (forall evs,
      Mcp.list_consumption input w = (Normal evs, w) ->
      Mcp.summarize_intake input w
      = (Normal (Mcp.mkSummary (VNum (sum_of evs)) (List.length evs)), w)) /\
  (forall err,
      Mcp.list_consumption input w = (Throw err, w) ->
      Mcp.summarize_intake input w = (Throw err, w)).
Proof.
  intros Hdb.
  unfold Mcp.summarize_intake, Mcp.list_consumption, Mcp.bind, Mcp.lift, Mcp.ret.
  destruct (get input "user_id") as [user_id|e1|]; [|split; intros; congruence|split; intros; discriminate].
  destruct (get input "from") as [from|e2|]; [|split; intros; congruence|split; intros; discriminate].
  destruct (get input "to") as [to|e3|]; [|split; intros; congruence|split; intros; discriminate].
  unfold Mcp.list.
  destruct (filterC (Mcp.keeps user_id from to) (Mcp.db w)) as [kept|e4|] eqn:E;
    (split; [intros evs H|intros err H]); try discriminate H; try congruence.
  injection H as <-.
  rewrite (mcp_reduce_calories kept 0);
    [reflexivity|exact (filterC_keeps_property _ _ _ _ Hdb E)].
Qed.

Lemma mcp_summarize_intake_sums_witness :
  Mcp.summarize_intake (VObj [])
    (snd (Mcp.log_consumption (batch [Fixture.toast; Fixture.juice]) VUndefined
                              Fixture.started))
  = (Normal (Mcp.mkSummary (VNum 160) 2),
     snd (Mcp.log_consumption (batch [Fixture.toast; Fixture.juice]) VUndefined
                              Fixture.started)).
Proof.
  refine (proj1 (mcp_summarize_intake_sums (VObj [])
                   (snd (Mcp.log_consumption (batch [Fixture.toast; Fixture.juice])
                                             VUndefined Fixture.started)) _)
                (Mcp.db (snd (Mcp.log_consumption (batch [Fixture.toast; Fixture.juice])
                                                  VUndefined Fixture.started)))
                eq_refl).
  repeat (constructor; [split; [reflexivity|first [left; reflexivity|right; eexists; reflexivity]]|]).
  constructor.
Defined.

(** *** The resource *)

Lemma string_eqb_by_order (a b : string) :
  String.leb b a && String.leb a b = (a =? b).
Proof.
  destruct (a =? b) eqn:E.
  - apply String.eqb_eq in E. subst. rewrite string_leb_refl. reflexivity.
  - destruct (String.leb b a) eqn:Eba; [|reflexivity].
    destruct (String.leb a b) eqn:Eab; [|reflexivity].
    pose proof (String.leb_antisym a b Eab Eba) as Heq. subst.
    rewrite String.eqb_refl in E. discriminate E.
Qed.

(** X16: the resource [consumption-events] of an owner and a day holds
    exactly the stored objects of that owner whose timestamp begins with
    that day (its first 10 characters are the day), in the order of [db]:
    the two bounds [list] is given, both the day, leave nothing else. *)
Theorem consumption_events_is_one_day (owner day : string) (w : Mcp.World) :
  owner <> "" -> day <> "" ->
  Forall schema_record (Mcp.db w) ->
  Mcp.consumption_events (VObj [("userId", VStr owner); ("date", VStr day)]) w
  = (Normal (Mcp.mkResource (VStr owner) (VStr day)
                            (filter (on_day owner day) (Mcp.db w))),
     w).
Proof.
  intros Howner Hday Hdb.
  unfold Mcp.consumption_events, Mcp.bind, Mcp.lift, Mcp.ret. cbn [get lookup].
  change ("userId" =? "userId") with true. change ("userId" =? "date") with false.
  change ("date" =? "date") with true. cbv iota.
  rewrite mcp_list_on_schema; [|exact Hdb|right; right; eexists; reflexivity
                               |right; right; eexists; reflexivity].
  f_equal. f_equal. f_equal. apply filter_ext_in. intros e He.
  rewrite Forall_forall in Hdb. destruct (Hdb e He) as (_ & [ts Hts] & _).
  unfold keeps_object, on_day, date_of_object. rewrite Hts. cbn [truthy].
  apply String.eqb_neq in Howner, Hday. rewrite Howner, Hday. cbn [negb orb].
  rewrite <- andb_assoc, string_eqb_by_order. reflexivity.
Qed.

Lemma consumption_events_is_one_day_witness :
  Mcp.consumption_events (VObj [("userId", VStr "ann"); ("date", VStr "2024-05-02")])
    (snd (Mcp.log_consumption (batch [Fixture.toast; Fixture.juice]) VUndefined
                              Fixture.started))
  = (Normal (Mcp.mkResource (VStr "ann") (VStr "2024-05-02")
               [VObj [("id", VStr "evt-7"); ("user_id", VStr "ann");
                      ("timestamp", VStr "2024-05-02T07:20:00Z"); ("item", VStr "juice");
                      ("amount", VNum 200); ("unit", VStr "ml");
                      ("source", VStr "import")]]),
     snd (Mcp.log_consumption (batch [Fixture.toast; Fixture.juice]) VUndefined
                              Fixture.started)).
Proof.
  apply (consumption_events_is_one_day "ann" "2024-05-02"
           (snd (Mcp.log_consumption (batch [Fixture.toast; Fixture.juice]) VUndefined
                                     Fixture.started))).
  - discriminate.
  - discriminate.
  - repeat (constructor; [schema_record_by_computation|]). constructor.
Defined.

(** *** The two validity checks *)

(** X17: the schema is the stricter check but for empty strings: an
    event the tool-protocol binding accepts, whose timestamp and item are
    not the empty string, passes the check of line 22 of the in-memory
    binding. *)
Theorem validate_implies_check_of_line_22 (e : value) :
  Mcp.validate e = true ->
  field e "timestamp" <> VStr "" ->
  field e "item" <> VStr "" ->
  invalid_event e = Normal false.
Proof.
  intros Hv Hts Hitem.
  destruct (validate_object e Hv) as [props ->].
  destruct (validate_fields props Hv) as ([ts Ht] & [it Hi] & [x Ha] & (u & Hu & Hin) & _).
  rewrite invalid_event_fields by reflexivity.
  change (field (VObj props)) with (fun k => lookup k props) in *. cbn beta in *.
  rewrite Ht, Hi, Ha, Hu in *. cbn.
  assert (Ets : (ts =? "") = false) by (apply String.eqb_neq; congruence).
  assert (Eit : (it =? "") = false) by (apply String.eqb_neq; congruence).
  assert (Eu : (u =? "") = false).
  { apply String.eqb_neq. intros ->. cbn in Hin.
    repeat (destruct Hin as [Hin|Hin]; [discriminate Hin|]). exact Hin. }
  rewrite Ets, Eit, Eu. reflexivity.
Qed.

Lemma validate_implies_check_of_line_22_witness :
  invalid_event Fixture.toast = Normal false.
Proof.
  apply (validate_implies_check_of_line_22 Fixture.toast).
  - reflexivity.
  - discriminate.
  - discriminate.
Defined.

(** ** Relational binding: the batch and its transaction *)

Section PgBatch.

Variable Table : Type.
Variable statement : list Pg.param -> Table -> completion Table.

(** One turn of the loop inside the transaction, for an event that
    passes the check of line 292. *)
Lemma pg_ingest_accepts (e : value) (c t : Table) (ids : nat -> string) (k : nat) :
  invalid_event e = Normal false ->
  Pg.ingest Table statement e (Pg.mkWorld c (Some t) ids k) =
  let id := if truthy (field e "id") then field e "id" else VStr (ids k) in
  let k' := if truthy (field e "id") then k else S k in
  match statement (params_of id e) t with
  | Normal t' => (Normal tt, Pg.mkWorld c (Some t') ids k')
  | Throw err => (Throw err, Pg.mkWorld c (Some t) ids k')
  | Unmodelled => (Unmodelled, Pg.mkWorld c (Some t) ids k')
  end.
Proof.
  intros He. pose proof (invalid_event_not_nullish e false He) as Hn.
  unfold Pg.ingest, Pg.bind at 1, Pg.lift at 1. rewrite He.
  unfold Pg.bind, Pg.lift. rewrite !(get_field e) by exact Hn.
  unfold params_of.
  destruct (truthy (field e "id")); cbn;
    match goal with |- context [statement ?a t] => destruct (statement a t) end;
    reflexivity.
Qed.

(** The loop inside the transaction, against the statements run one
    after the other. *)
Lemma pg_for_of_runs_inserts (es : list value) (c t : Table) (ids : nat -> string)
      (k : nat) :
  Forall (fun e => invalid_event e = Normal false) es ->
  exists t_seen,
    Pg.for_of Table es (Pg.ingest Table statement) (Pg.mkWorld c (Some t) ids k) =
    match run_inserts statement ids k es t with
    | (Normal t', k') => (Normal tt, Pg.mkWorld c (Some t') ids k')
    | (Throw err, k') => (Throw err, Pg.mkWorld c (Some t_seen) ids k')
    | (Unmodelled, k') => (Unmodelled, Pg.mkWorld c (Some t_seen) ids k')
    end.
Proof.
  intros Hes. revert t k. induction Hes as [|e es He Hes IH]; intros t k.
  - exists t. reflexivity.
  - rewrite pg_for_of_cons, (pg_ingest_accepts e c t ids k He). cbn [run_inserts]. cbv zeta.
    destruct (statement _ t) as [t'|err|].
    + apply IH.
    + exists t. reflexivity.
    + exists t. reflexivity.
Qed.

(** The call on a batch that is not empty: the loop between [BEGIN] and
    [COMMIT], or [ROLLBACK]. *)
Lemma pg_log_consumption_transaction (e : value) (es : list value) (w : Pg.World Table) :
  Pg.log_consumption statement (batch (e :: es)) w =
  match Pg.for_of Table (e :: es) (Pg.ingest Table statement)
                  (Pg.mkWorld (Pg.committed w) (Some (Pg.committed w))
                              (Pg.uuids w) (Pg.drawn w)) with
  | (Normal _, w1) =>
      match Pg.pending w1 with
      | Some t => (Normal (mkSaved (S (List.length es))),
                   Pg.mkWorld t None (Pg.uuids w1) (Pg.drawn w1))
      | None => (Normal (mkSaved (S (List.length es))), w1)
      end
  | (Throw err, w1) =>
      (Throw err, Pg.mkWorld (Pg.committed w1) None (Pg.uuids w1) (Pg.drawn w1))
  | (Unmodelled, w1) => (Unmodelled, w1)
  end.
Proof.
  unfold Pg.log_consumption, Pg.bind at 1, Pg.lift.
  change (get_opt (batch (e :: es)) "events") with (Normal (VArr (e :: es))).
  cbn [Array_isArray elements List.length Nat.eqb].
  unfold Pg.try_catch, Pg.bind at 1, Pg.query_BEGIN. unfold Pg.bind at 1.
  destruct (Pg.for_of Table (e :: es) (Pg.ingest Table statement) _) as [[u|err|] w1].
  - unfold Pg.bind, Pg.query_COMMIT, Pg.ret. destruct (Pg.pending w1); reflexivity.
  - reflexivity.
  - reflexivity.
Qed.

(** X18: a batch of events that pass the check of line 292 is all or
    nothing.  When every statement succeeds the committed table is what the
    statements, run one after the other on the table from before the call,
    leave, and [saved_count] is the size of the batch; when a statement
    fails the call throws that very error and the committed table is the
    one from before the call.  No transaction stays open either way; the
    identifiers drawn for events without [id] are not given back. *)
Theorem pg_log_consumption_all_or_nothing (e : value) (es : list value)
        (w : Pg.World Table) :
  Forall (fun e => invalid_event e = Normal false) (e :: es) ->
  match run_inserts statement (Pg.uuids w) (Pg.drawn w) (e :: es) (Pg.committed w) with
  | (Normal t, k) =>
      Pg.log_consumption statement (batch (e :: es)) w
      = (Normal (mkSaved (S (List.length es))), Pg.mkWorld t None (Pg.uuids w) k)
  | (Throw err, k) =>
      Pg.log_consumption statement (batch (e :: es)) w
      = (Throw err, Pg.mkWorld (Pg.committed w) None (Pg.uuids w) k)
  | (Unmodelled, _) =>
      fst (Pg.log_consumption statement (batch (e :: es)) w) = Unmodelled
  end.
Proof.
  intros Hes. rewrite pg_log_consumption_transaction.
  destruct (pg_for_of_runs_inserts (e :: es) (Pg.committed w) (Pg.committed w)
                                   (Pg.uuids w) (Pg.drawn w) Hes) as [t_seen Hrun].
  rewrite Hrun.
  destruct (run_inserts statement (Pg.uuids w) (Pg.drawn w) (e :: es) (Pg.committed w))
    as [[t|err|] k]; reflexivity.
Qed.

(** X19: an event that fails the check of line 292 undoes the events in
    front of it: when these pass the check and their statements succeed,
    the call throws "Invalid event" and the committed table is the one from
    before the call, with no transaction left open. *)
Theorem pg_invalid_event_rolls_back (accepted : list value) (e : value)
        (rest : list value) (w : Pg.World Table) (t : Table) (k : nat) :
  Forall (fun e => invalid_event e = Normal false) accepted ->
  invalid_event e = Normal true ->
  run_inserts statement (Pg.uuids w) (Pg.drawn w) accepted (Pg.committed w)
  = (Normal t, k) ->
  Pg.log_consumption statement (batch (accepted ++ e :: rest)) w
  = (Throw (Error "Invalid event"), Pg.mkWorld (Pg.committed w) None (Pg.uuids w) k).
Proof.
  intros Hacc He Hrun.
  assert (H : forall c t0 k0 t1 k1,
             Forall (fun e => invalid_event e = Normal false) accepted ->
             run_inserts statement (Pg.uuids w) k0 accepted t0 = (Normal t1, k1) ->
             Pg.for_of Table (accepted ++ e :: rest) (Pg.ingest Table statement)
                       (Pg.mkWorld c (Some t0) (Pg.uuids w) k0)
             = (Throw (Error "Invalid event"), Pg.mkWorld c (Some t1) (Pg.uuids w) k1)).
  { clear Hrun Hacc. intros c t0 k0 t1 k1 Hacc. revert t0 k0.
    induction Hacc as [|a accepted Ha Hacc IH]; intros t0 k0 Hrun.
    - cbn in Hrun. injection Hrun as <- <-. cbn [app].
      rewrite pg_for_of_cons. unfold Pg.ingest, Pg.bind, Pg.lift. rewrite He. reflexivity.
    - cbn [app]. rewrite pg_for_of_cons, (pg_ingest_accepts a c t0 (Pg.uuids w) k0 Ha).
      cbn [run_inserts] in Hrun. cbv zeta in *.
      destruct (statement _ t0) as [t'|err|]; try discriminate Hrun.
      apply IH. exact Hrun. }
  specialize (H (Pg.committed w) (Pg.committed w) (Pg.drawn w) t k Hacc Hrun).
  destruct (accepted ++ e :: rest) as [|x xs] eqn:E.
  - destruct accepted; discriminate E.
  - rewrite pg_log_consumption_transaction, H. reflexivity.
Qed.

End PgBatch.

Lemma pg_log_consumption_all_or_nothing_witness :
  Pg.log_consumption Fixture.checked_insert (batch [Sample.apple; Sample.kilogram])
                     Fixture.empty_table
  = (Throw (Error "violates check constraint"), Pg.mkWorld [] None Sample.uuids 2).
Proof.
  apply (pg_log_consumption_all_or_nothing (list (list Pg.param)) Fixture.checked_insert
                                           Sample.apple [Sample.kilogram]
                                           Fixture.empty_table).
  repeat constructor.
Defined.

Lemma pg_invalid_event_rolls_back_witness :
  Pg.log_consumption Fixture.checked_insert
                     (batch ([Sample.apple; Sample.pear_under "e1"] ++ Sample.no_unit :: []))
                     Fixture.empty_table
  = (Throw (Error "Invalid event"), Pg.mkWorld [] None Sample.uuids 1).
Proof.
  apply (pg_invalid_event_rolls_back (list (list Pg.param)) Fixture.checked_insert
                                     [Sample.apple; Sample.pear_under "e1"]
                                     Sample.no_unit [] Fixture.empty_table
                                     [params_of (VStr (Sample.uuids 0)) Sample.apple;
                                      params_of (VStr "e1") (Sample.pear_under "e1")] 1).
  - repeat constructor.
  - reflexivity.
  - reflexivity.
Defined.

(** ** Relational binding: the conditions of the queries *)

(** X20: the conditions are built from the arguments that are there
    (truthy), in the order [user_id], [from], [to]: the [n]-th of them
    tests its column against the placeholder [$n] and [args] holds its
    value at position [n]; the text never contains a value of the
    request. *)
Theorem conditions_number_their_placeholders (input : value) :
  let present :=
    filter (fun p => truthy (snd p))
           [("user_id = $", field (args_of input) "user_id");
            ("DATE(ts) >= $", field (args_of input) "from");
            ("DATE(ts) <= $", field (args_of input) "to")] in
  PgQuery.conditions input =
  Normal (map (fun p => (fst (snd p) ++ PgQuery.decimal (S (fst p)))%string)
              (combine (seq 0 (List.length present)) present),
          map snd present).
Proof.
  cbv zeta. unfold PgQuery.conditions. fold (args_of input).
  rewrite !(get_field (args_of input)) by apply args_of_not_nullish.
  cbn [bindC filter snd]. unfold PgQuery.push_condition.
  destruct (truthy (field (args_of input) "user_id"));
    destruct (truthy (field (args_of input) "from"));
    destruct (truthy (field (args_of input) "to")); reflexivity.
Qed.

(** ** Tool-protocol binding: failure and scoping *)

(** X21: the handler stops at the first event that does not validate.
    The events in front of it are in [db] when it throws "Invalid event",
    with [id] and [user_id] filled in, and the events behind it are not
    looked at. *)
Theorem mcp_log_consumption_first_failure (accepted : list value) (e : value)
        (rest : list value) (user : value) (w : Mcp.World) :
  Forall (fun e => Mcp.validate e = true) accepted ->
  Mcp.validate e = false ->
  exists new,
    Mcp.log_consumption (batch (accepted ++ e :: rest)) user w
    = (Throw (Error "Invalid event"),
       Mcp.mkWorld (Mcp.db w ++ new) (Mcp.ids w)
                   (List.length (filter (fun e => negb (truthy (field e "id"))) accepted)
                    + Mcp.drawn w)) /\
    Forall2 (filled_in (caller user)) accepted new.
Proof.
  intros Hacc He.
  assert (H : forall w0,
             exists new,
               Mcp.forEach (accepted ++ e :: rest) (Mcp.store (caller user)) w0
               = (Throw (Error "Invalid event"),
                  Mcp.mkWorld (Mcp.db w0 ++ new) (Mcp.ids w0)
                              (List.length (filter (fun e => negb (truthy (field e "id")))
                                                   accepted)
                               + Mcp.drawn w0)) /\
               Forall2 (filled_in (caller user)) accepted new).
  { induction Hacc as [|a accepted Ha Hacc IH]; intros w0.
    - exists []. cbn [app]. rewrite forEach_cons, (store_rejects _ e w0 He).
      cbn. rewrite app_nil_r. destruct w0. split; [reflexivity|constructor].
    - cbn [app]. rewrite forEach_cons.
      destruct (store_accepts (caller user) a w0 Ha) as (r & Hstore & _ & Hfilled).
      rewrite Hstore.
      match goal with
      | |- context [Mcp.forEach _ _ ?w1] => destruct (IH w1) as (new & Hrun & Hnew)
      end.
      exists (r :: new). rewrite Hrun. cbn [Mcp.db Mcp.ids Mcp.drawn filter].
      split; [|constructor; assumption].
      rewrite <- app_assoc. cbn [app].
      destruct (truthy (field a "id")); cbn [negb List.length]; [reflexivity|].
      rewrite Nat.add_succ_r. reflexivity. }
  destruct (H w) as (new & Hrun & Hnew). exists new. split; [|exact Hnew].
  unfold Mcp.log_consumption, Mcp.bind at 1, Mcp.lift at 1.
  rewrite (log_consumption_caller user). fold (caller user).
  unfold Mcp.bind at 1, Mcp.lift.
  change (get (batch (accepted ++ e :: rest)) "events")
    with (Normal (VArr (accepted ++ e :: rest))). cbv iota.
  unfold Mcp.bind. rewrite Hrun. reflexivity.
Qed.

Lemma mcp_log_consumption_first_failure_witness :
  exists new,
    Mcp.log_consumption (batch ([Fixture.toast] ++ Sample.apple :: [Fixture.juice]))
                        VUndefined Fixture.started
    = (Throw (Error "Invalid event"),
       Mcp.mkWorld ([] ++ new) Fixture.ids (1 + 0)) /\
    Forall2 (filled_in (VStr "u1")) [Fixture.toast] new.
Proof.
  apply (mcp_log_consumption_first_failure [Fixture.toast] Sample.apple [Fixture.juice]
                                           VUndefined Fixture.started).
  - repeat constructor.
  - reflexivity.
Defined.

(** X22: a listing scoped to a non-empty owner holds objects of that
    owner only, whatever the store holds and whatever the bounds are. *)
Theorem mcp_list_is_scoped (owner : string) (from to : value) (w : Mcp.World)
        (evs : list value) :
  owner <> "" ->
  Mcp.list (VStr owner) from to w = (Normal evs, w) ->
  Forall (fun e => field e "user_id" = VStr owner) evs.
Proof.
  intros Howner H. unfold Mcp.list in H. injection H as H.
  eapply Forall_impl; [|exact (filterC_kept _ _ _ H)]. cbn. intros e He.
  unfold Mcp.keeps in He. cbn [truthy] in He.
  apply String.eqb_neq in Howner. rewrite Howner in He. cbn [negb] in He.
  unfold field. destruct (get e "user_id") as [x| |]; cbn in He; try discriminate He.
  destruct (strict_eq x (VStr owner)) eqn:E; cbn in He; [|discriminate He].
  apply strict_eq_string. exact E.
Qed.

Lemma mcp_list_is_scoped_witness :
  Forall (fun e => field e "user_id" = VStr "ann")
         [VObj [("id", VStr "evt-7"); ("user_id", VStr "ann");
                ("timestamp", VStr "2024-05-02T07:20:00Z"); ("item", VStr "juice");
                ("amount", VNum 200); ("unit", VStr "ml"); ("source", VStr "import")]].
Proof.
  apply (mcp_list_is_scoped "ann" VUndefined VUndefined
           (snd (Mcp.log_consumption (batch [Fixture.toast; Fixture.juice]) VUndefined
                                     Fixture.started))).
  - discriminate.
  - reflexivity.
Defined.

(** ** The validity checks of the two bindings against the Validator *)

Lemma for_of_app {A} (xs ys : list A) (body : A -> M unit) (w : World) :
  for_of (xs ++ ys) body w =
  match for_of xs body w with
  | (Normal _, w') => for_of ys body w'
  | (Throw err, w') => (Throw err, w')
  | (Unmodelled, w') => (Unmodelled, w')
  end.
Proof.
  revert w. induction xs as [|x xs IH]; intros w; [reflexivity|].
  cbn [app]. rewrite !for_of_cons.
  destruct (body x w) as [[u| |] w1]; [apply IH|reflexivity|reflexivity].
Qed.

Lemma forEach_app {A} (xs ys : list A) (body : A -> Mcp.M unit) (w : Mcp.World) :
  Mcp.forEach (xs ++ ys) body w =
  match Mcp.forEach xs body w with
  | (Normal _, w') => Mcp.forEach ys body w'
  | (Throw err, w') => (Throw err, w')
  | (Unmodelled, w') => (Unmodelled, w')
  end.
Proof.
  revert w. induction xs as [|x xs IH]; intros w; [reflexivity|].
  cbn [app]. rewrite !forEach_cons.
  destruct (body x w) as [[u| |] w1]; [apply IH|reflexivity|reflexivity].
Qed.

(** An event the check of line 22 lets through is in [db] after the call,
    behind the records of the events in front of it, whatever comes after
    it in the batch. *)
Lemma log_consumption_stores_accepted (accepted : list value) (e : value)
      (rest : list value) (w : World) :
  Forall (fun a => invalid_event a = Normal false) accepted ->
  invalid_event e = Normal false ->
  exists more,
    db (snd (Http.log_consumption (batch (accepted ++ e :: rest)) w))
    = db w ++ records_from (uuids w) (drawn w) (accepted ++ [e]) ++ more.
Proof.
  intros Hacc He.
  assert (Hall : Forall (fun a => invalid_event a = Normal false) (accepted ++ [e])).
  { apply Forall_app. split; [exact Hacc|constructor; [exact He|constructor]]. }
  rewrite log_consumption_batch.
  replace (accepted ++ e :: rest) with ((accepted ++ [e]) ++ rest)
    by (rewrite <- app_assoc; reflexivity).
  rewrite for_of_app, (for_of_ingest_accepts _ w Hall).
  match goal with
  | |- context [for_of rest ingest ?w1] =>
      destruct (for_of_ingest_appends rest w1) as (more & Hdb & _);
      destruct (for_of rest ingest w1) as [[]]
  end; exists more; cbn [snd db] in *; rewrite Hdb, <- app_assoc; reflexivity.
Qed.

(** The compiled schema accepts what the schema asks for in words. *)
Lemma validate_schema_validator (e : value) :
  Mcp.validate e = schema_validator e.
Proof.
  apply Bool.eq_true_iff_eq.
  destruct e as [| | | | | |props]; try (cbn; split; intros H; discriminate H).
  unfold Mcp.validate, schema_validator, Mcp.property_ok.
  cbn [forallb Mcp.required is_object andb].
  change (field (VObj props)) with (fun k => lookup k props). cbn beta.
  split; intros H.
  - apply andb_prop in H as [H Hsource]. apply andb_prop in H as [H Hunit].
    apply andb_prop in H as [H Hamount]. apply andb_prop in H as [H Hitem].
    apply andb_prop in H as [H Htimestamp]. apply andb_prop in H as [H Huser].
    apply andb_prop in H as [H Hid].
    apply andb_prop in H as [Rtimestamp H]. apply andb_prop in H as [Ritem H].
    apply andb_prop in H as [Ramount H]. apply andb_prop in H as [Runit H].
    apply andb_prop in H as [Rsource _].
    repeat (apply andb_true_intro; split).
    + destruct (lookup "timestamp" props); cbn in *; try discriminate; reflexivity.
    + destruct (lookup "item" props); cbn in *; try discriminate; reflexivity.
    + destruct (lookup "amount" props); cbn in *; try discriminate; reflexivity.
    + destruct (lookup "unit" props); cbn in *; try discriminate; exact Hunit.
    + destruct (lookup "source" props); cbn in *; try discriminate; reflexivity.
    + destruct (lookup "id" props); cbn in *; try discriminate; reflexivity.
    + destruct (lookup "user_id" props); cbn in *; try discriminate; reflexivity.
  - apply andb_prop in H as [H Suser]. apply andb_prop in H as [H Sid].
    apply andb_prop in H as [H Ssource]. apply andb_prop in H as [H Sunit].
    apply andb_prop in H as [H Samount]. apply andb_prop in H as [Stimestamp Sitem].
    repeat (apply andb_true_intro; split); try reflexivity.
    + destruct (lookup "timestamp" props); cbn in *; try discriminate; reflexivity.
    + destruct (lookup "item" props); cbn in *; try discriminate; reflexivity.
    + destruct (lookup "amount" props); cbn in *; try discriminate; reflexivity.
    + destruct (lookup "unit" props); cbn in *; try discriminate; reflexivity.
    + destruct (lookup "source" props); cbn in *; try discriminate; reflexivity.
    + destruct (lookup "id" props); cbn in *; try discriminate; reflexivity.
    + destruct (lookup "user_id" props); cbn in *; try discriminate; reflexivity.
    + destruct (lookup "timestamp" props); cbn in *; try discriminate; reflexivity.
    + destruct (lookup "item" props); cbn in *; try discriminate; reflexivity.
    + destruct (lookup "amount" props); cbn in *; try discriminate; reflexivity.
    + destruct (lookup "unit" props); cbn in *; try discriminate; exact Sunit.
    + destruct (lookup "source" props); cbn in *; try discriminate; reflexivity.
Qed.

Lemma mcp_log_consumption_batch (es : list value) (user : value) (w : Mcp.World) :
  Mcp.log_consumption (batch es) user w =
  match Mcp.forEach es (Mcp.store (caller user)) w with
  | (Normal _, w') => (Normal (mkSaved (List.length es)), w')
  | (Throw err, w') => (Throw err, w')
  | (Unmodelled, w') => (Unmodelled, w')
  end.
Proof.
  unfold Mcp.log_consumption, Mcp.bind at 1, Mcp.lift at 1.
  rewrite (log_consumption_caller user). fold (caller user).
  unfold Mcp.bind at 1, Mcp.lift.
  change (get (batch es) "events") with (Normal (VArr es)). cbv iota.
  unfold Mcp.bind, Mcp.ret.
  destruct (Mcp.forEach es (Mcp.store (caller user)) w) as [[]]; reflexivity.
Qed.

(** An event that validates is in [db] after the call, behind the objects
    of the events in front of it, whatever comes after it in the batch. *)
Lemma mcp_log_consumption_stores_accepted (accepted : list value) (e : value)
      (rest : list value) (user : value) (w : Mcp.World) :
  Forall (fun a => Mcp.validate a = true) accepted ->
  Mcp.validate e = true ->
  exists new r more,
    Mcp.db (snd (Mcp.log_consumption (batch (accepted ++ e :: rest)) user w))
    = Mcp.db w ++ new ++ r :: more /\
    Forall2 (filled_in (caller user)) accepted new /\
    filled_in (caller user) e r.
Proof.
  intros Hacc He.
  assert (Hall : Forall (fun a => Mcp.validate a = true) (accepted ++ [e])).
  { apply Forall_app. split; [exact Hacc|constructor; [exact He|constructor]]. }
  rewrite mcp_log_consumption_batch.
  replace (accepted ++ e :: rest) with ((accepted ++ [e]) ++ rest)
    by (rewrite <- app_assoc; reflexivity).
  rewrite forEach_app.
  destruct (forEach_store_accepts (caller user) _ w Hall) as (stored & -> & Hstored & _).
  apply Forall2_app_inv_l in Hstored as (new & last & Hnew & Hlast & ->).
  inversion Hlast as [|? r ? tl Hr Htl]; subst. inversion Htl; subst.
  match goal with
  | |- context [Mcp.forEach rest _ ?w1] =>
      destruct (forEach_store_appends (caller user) rest w1 (caller_truthy user))
        as (more & Hdb & _);
      destruct (Mcp.forEach rest (Mcp.store (caller user)) w1) as [[]]
  end; exists new, r, more; cbn [snd Mcp.db] in *; rewrite Hdb, <- !app_assoc;
    (split; [reflexivity|split; assumption]).
Qed.

(** The events in front of the first one that does not validate are in
    [db] when the call throws. *)
Lemma mcp_log_consumption_refuses (accepted : list value) (e : value)
      (rest : list value) (user : value) (w : Mcp.World) :
  Forall (fun a => Mcp.validate a = true) accepted ->
  Mcp.validate e = false ->
  exists new,
    Mcp.log_consumption (batch (accepted ++ e :: rest)) user w
    = (Throw (Error "Invalid event"),
       Mcp.mkWorld (Mcp.db w ++ new) (Mcp.ids w)
                   (List.length (filter (fun a => negb (truthy (field a "id"))) accepted)
                    + Mcp.drawn w)) /\
    Forall2 (filled_in (caller user)) accepted new.
Proof.
  intros Hacc He.
  rewrite mcp_log_consumption_batch, forEach_app.
  destruct (forEach_store_accepts (caller user) accepted w Hacc) as (new & -> & Hnew & _).
  rewrite forEach_cons, (store_rejects _ e _ He).
  exists new. split; [reflexivity|exact Hnew].
Qed.

Lemma Forall_validate (es : list value) :
  Forall (fun a => schema_validator a = true) es ->
  Forall (fun a => Mcp.validate a = true) es.
Proof.
  apply Forall_impl. intros a H. rewrite validate_schema_validator. exact H.
Qed.

(** C4, amended, binding by binding, for an event at any place of a batch
    whose events in front of it were let through.

    In-memory binding (the check of line 22): an event other than [null]
    is stored, under the next identifier and behind the records of the
    events in front of it, when its timestamp and item are non-empty
    strings, its amount is a number (finite or not) and its unit is one of
    g, ml, piece, serving; the call throws "Invalid event" at it, nothing
    stored for it or for the events behind it, when timestamp, item or
    unit is missing or empty or the amount is not a number.

    Tool-protocol binding (the schema of lines 112-124): an event is
    stored, with [id] and [user_id] filled in, exactly when it is an object
    whose timestamp, item and source are strings, whose amount is a number
    (finite or not), whose unit is one of g, ml, piece, serving and whose
    id and user_id are strings when present; otherwise the call throws
    "Invalid event" at it, nothing stored for it or for the events behind
    it. *)
Theorem log_consumption_validation (accepted : list value) (e : value)
        (rest : list value) :
  (forall w : World,
      Forall (fun a => invalid_event a = Normal false) accepted ->
      nullish e = false ->
      (validator_any_number e = true ->
       exists more,
         db (snd (Http.log_consumption (batch (accepted ++ e :: rest)) w))
         = db w ++ records_from (uuids w) (drawn w) (accepted ++ [e]) ++ more) /\
      (lacks_required e = true ->
       Http.log_consumption (batch (accepted ++ e :: rest)) w =
       (Throw (Error "Invalid event"),
        mkWorld (db w ++ records_from (uuids w) (drawn w) accepted) (uuids w)
                (List.length accepted + drawn w))))
  /\
  (forall (user : value) (w : Mcp.World),
      Forall (fun a => schema_validator a = true) accepted ->
      (schema_validator e = true ->
       exists new r more,
         Mcp.db (snd (Mcp.log_consumption (batch (accepted ++ e :: rest)) user w))
         = Mcp.db w ++ new ++ r :: more /\
         Forall2 (filled_in (caller user)) accepted new /\
         filled_in (caller user) e r) /\
      (schema_validator e = false ->
       exists new,
         Mcp.log_consumption (batch (accepted ++ e :: rest)) user w
         = (Throw (Error "Invalid event"),
            Mcp.mkWorld (Mcp.db w ++ new) (Mcp.ids w)
                        (List.length (filter (fun a => negb (truthy (field a "id")))
                                             accepted)
                         + Mcp.drawn w)) /\
         Forall2 (filled_in (caller user)) accepted new)).
Proof.
  split.
  - intros w Hacc Hn. split; intros H.
    + apply log_consumption_stores_accepted; [exact Hacc|].
      apply validator_any_number_accepted. exact H.
    + apply log_consumption_stops_at_invalid; [exact Hacc|].
      apply lacks_required_rejected; assumption.
  - intros user w Hacc. apply Forall_validate in Hacc. split; intros H.
    + apply mcp_log_consumption_stores_accepted; [exact Hacc|].
      rewrite validate_schema_validator. exact H.
    + apply mcp_log_consumption_refuses; [exact Hacc|].
      rewrite validate_schema_validator. exact H.
Qed.

(** [soup] behind [apple] is stored second in the in-memory binding, and
    the tea without unit behind [apple] stops the call; in the
    tool-protocol binding [juice] behind [toast] is stored second, and
    [apple], which has no source, stops the call behind [toast]. *)
Lemma log_consumption_validation_witness :
  (Forall (fun a => invalid_event a = Normal false) [Sample.apple] /\
   nullish Sample.soup = false /\
   validator_any_number Sample.soup = true /\
   exists more,
     db (snd (Http.log_consumption (batch ([Sample.apple] ++ Sample.soup :: [Sample.no_unit]))
                                   Sample.fresh))
     = [] ++ records_from Sample.uuids 0 ([Sample.apple] ++ [Sample.soup]) ++ more)
  /\
  (lacks_required Sample.no_unit = true /\
   Http.log_consumption (batch ([Sample.apple] ++ Sample.no_unit :: [Sample.soup]))
                        Sample.fresh
   = (Throw (Error "Invalid event"),
      mkWorld ([] ++ records_from Sample.uuids 0 [Sample.apple]) Sample.uuids (1 + 0)))
  /\
  (Forall (fun a => schema_validator a = true) [Fixture.toast] /\
   schema_validator Fixture.juice = true /\
   exists new r more,
     Mcp.db (snd (Mcp.log_consumption (batch ([Fixture.toast] ++ Fixture.juice :: []))
                                      VUndefined Fixture.started))
     = [] ++ new ++ r :: more /\
     Forall2 (filled_in (VStr "u1")) [Fixture.toast] new /\
     filled_in (VStr "u1") Fixture.juice r)
  /\
  (schema_validator Sample.apple = false /\
   exists new,
     Mcp.log_consumption (batch ([Fixture.toast] ++ Sample.apple :: [Fixture.juice]))
                         VUndefined Fixture.started
     = (Throw (Error "Invalid event"), Mcp.mkWorld ([] ++ new) Fixture.ids (1 + 0)) /\
     Forall2 (filled_in (VStr "u1")) [Fixture.toast] new).
Proof.
  assert (Happle : Forall (fun a => invalid_event a = Normal false) [Sample.apple])
    by (constructor; [reflexivity|constructor]).
  assert (Htoast : Forall (fun a => schema_validator a = true) [Fixture.toast])
    by (constructor; [reflexivity|constructor]).
  split; [|split; [|split]].
  - split; [exact Happle|]. split; [reflexivity|]. split; [reflexivity|].
    exact (proj1 (proj1 (log_consumption_validation [Sample.apple] Sample.soup
                           [Sample.no_unit])
                        Sample.fresh Happle eq_refl) eq_refl).
  - split; [reflexivity|].
    exact (proj2 (proj1 (log_consumption_validation [Sample.apple] Sample.no_unit
                           [Sample.soup])
                        Sample.fresh Happle eq_refl) eq_refl).
  - split; [exact Htoast|]. split; [reflexivity|].
    exact (proj1 (proj2 (log_consumption_validation [Fixture.toast] Fixture.juice [])
                        VUndefined Fixture.started Htoast) eq_refl).
  - split; [reflexivity|].
    exact (proj2 (proj2 (log_consumption_validation [Fixture.toast] Sample.apple
                           [Fixture.juice])
                        VUndefined Fixture.started Htoast) eq_refl).
Defined.
